(* Verification model of github.com/pbnjay/goseq: the buffered FASTA/FASTQ
   readers (goseq.go, fastq.go) and the fan-out writers of cmd/fq2fa.

   Modelling conventions.
   - A Go []byte or string is a [list byte].
   - A *bufio.Reader over an *os.File is modelled by the bytes it has not yet
     handed out (buffered bytes followed by the unread file contents).  For a
     file reader (each Read returns as many bytes as asked, io.EOF only on an
     empty read) the slices returned by ReadSlice, ReadBytes and Discard are a
     function of those bytes and of the buffer size alone.
   - A Go error value is [option goerr]; [None] is nil.
   - An out-of-range slice expression (a run-time panic) makes the result
     [None] where it can occur. *)

From Stdlib Require Import Strings.Byte Strings.String.
From Stdlib Require Import List Arith Lia Bool ZArith.
From Stdlib Require Import Floats.SpecFloat.
Import ListNotations.

Open Scope list_scope.

(* ------------------------------------------------------------------------- *)
(** * Bytes *)

Definition NL : byte := x0a.     (* '\n' *)
Definition GT : byte := x3e.     (* '>'  *)
Definition AT : byte := x40.     (* '@'  *)
Definition PLUS : byte := x2b.   (* '+'  *)

(** Byte-string literal: the bytes of a Rocq string. *)
Definition bs (s : string) : list byte := list_byte_of_string s.

(** Newline-terminated lines. *)
Definition lines (ls : list (list byte)) : list byte :=
  List.concat (map (fun l => l ++ [NL]) ls).

(** Newline-terminated lines, each given as a Rocq string. *)
Definition lns (l : list string) : list byte := lines (map bs l).

(** [b[0] == c] for a slice known to be non-empty. *)
Definition first_is (c : byte) (l : list byte) : bool :=
  match l with
  | b :: _ => Byte.eqb b c
  | [] => false
  end.

(** [b[:len(b)-1]]. *)
Definition chop_last (l : list byte) : list byte := firstn (length l - 1) l.

(* ------------------------------------------------------------------------- *)
(** * Errors *)

Inductive goerr :=
| EOF                 (* io.EOF *)
| ErrBufferFull       (* bufio.ErrBufferFull *)
| ErrNotStarted       (* errNotStarted = "goseq: Next() not yet called" *)
| ErrNotFastq.        (* "goseq: not a fastq file" *)

Definition goerr_eqb (a b : goerr) : bool :=
  match a, b with
  | EOF, EOF | ErrBufferFull, ErrBufferFull
  | ErrNotStarted, ErrNotStarted | ErrNotFastq, ErrNotFastq => true
  | _, _ => false
  end.

(** [e == target] on Go error values ([None] is nil). *)
Definition err_is (e : option goerr) (target : goerr) : bool :=
  match e with
  | Some e' => goerr_eqb e' target
  | None => false
  end.

Definition is_nil (e : option goerr) : bool :=
  match e with None => true | Some _ => false end.

(* ------------------------------------------------------------------------- *)
(** * bufio.Reader *)

Module Bufio.

(** bufio.NewReader uses defaultBufSize = 4096. *)
Definition defaultBufSize : nat := 4096.

(** Split off the first line, '\n' included. *)
Fixpoint split_line (s : list byte) : option (list byte * list byte) :=
  match s with
  | [] => None
  | b :: r =>
      if Byte.eqb b NL then Some ([b], r)
      else match split_line r with
           | Some (l, r') => Some (b :: l, r')
           | None => None
           end
  end.

(** ReadSlice('\n') on a reader with buffer size [B]: the line if its '\n'
    lies in the next [B] bytes; otherwise the full buffer with ErrBufferFull
    if at least [B] bytes remain; otherwise what remains, with io.EOF. *)
Definition ReadSlice (B : nat) (s : list byte)
  : list byte * list byte * option goerr :=
  match split_line s with
  | Some (l, r) =>
      if length l <=? B then (l, r, None)
      else (firstn B s, skipn B s, Some ErrBufferFull)
  | None =>
      if B <=? length s then (firstn B s, skipn B s, Some ErrBufferFull)
      else (s, [], Some EOF)
  end.

(** ReadBytes('\n'): the whole line, or what remains with io.EOF. *)
Definition ReadBytes (s : list byte) : list byte * list byte * option goerr :=
  match split_line s with
  | Some (l, r) => (l, r, None)
  | None => (s, [], Some EOF)
  end.

(** Discard(n): skips [n] bytes, or all that remain with io.EOF. *)
Definition Discard (n : nat) (s : list byte) : nat * list byte * option goerr :=
  match n with
  | 0 => (0, s, None)
  | _ => if n <=? length s then (n, skipn n s, None)
         else (length s, [], Some EOF)
  end.

(** Peek(1). *)
Definition Peek1 (s : list byte) : list byte * option goerr :=
  match s with
  | [] => ([], Some EOF)
  | b :: _ => ([b], None)
  end.

End Bufio.

Import Bufio.

(* ------------------------------------------------------------------------- *)
(** * fastFastaReader (goseq.go) *)

Module Fasta.

Record reader := mk {
  br : list byte;                 (* f.br *)
  lastErr : option goerr;         (* f.lastErr *)
  identifierBytes : list byte;    (* f.identifierBytes *)
  lastBytes : list byte;          (* f.lastBytes *)
  closed : bool                   (* f.f.Close() has been called *)
}.

(** Next(). *)
Definition Next (f : reader) : reader * bool :=
  let f1 :=
    if err_is (lastErr f) ErrNotStarted then
      let '(l, r, e) := ReadBytes (br f) in
      mk r e l (lastBytes f) (closed f)
    else f in
  if err_is (lastErr f1) EOF then
    (mk (br f1) (lastErr f1) (identifierBytes f1) (lastBytes f1) true, false)
  else if negb (is_nil (lastErr f1)) then (f1, false)
  else match identifierBytes f1 with
       | [] => (f1, false)
       | b :: _ => (f1, Byte.eqb b GT)
       end.

(** Err(). *)
Definition Err (f : reader) : option goerr := lastErr f.

(** Identifier(): [string(f.identifierBytes[1 : len-1])]; [None] when the
    slice bounds are out of range (a run-time panic). *)
Definition Identifier (f : reader) : option (list byte) :=
  let n := length (identifierBytes f) in
  if 2 <=? n then Some (firstn (n - 2) (skipn 1 (identifierBytes f)))
  else None.

(** The [for] loop of Sequence(); [seq] is the accumulator.  Every pass that
    does not return consumes at least one byte, so [length (br f)] passes
    suffice (see [Sequence]). *)
Fixpoint seq_loop (fuel : nat) (f : reader) (seq : list byte)
  : reader * list byte :=
  match fuel with
  | 0 => (f, seq)
  | S fuel' =>
      let '(lb, r, e0) := ReadSlice defaultBufSize (br f) in
      let e := if err_is e0 ErrBufferFull then None else e0 in
      let f' := mk r e (identifierBytes f) lb (closed f) in
      if negb (is_nil e) then (f', seq)
      else match lb with
           | [] => (f', seq)
           | b :: _ =>
               if Byte.eqb b GT then (mk r e lb lb (closed f), seq)
               else seq_loop fuel' f' (seq ++ chop_last lb)
           end
  end.

(** Sequence(). *)
Definition Sequence (f : reader) : reader * list byte :=
  seq_loop (S (length (br f))) f [].

(** The [for] loop of SequenceBytes(eachbyte); [out] lists the bytes passed
    to the callback, in order. *)
Fixpoint sb_loop (fuel : nat) (f : reader) (out : list byte)
  : reader * list byte * option goerr :=
  match fuel with
  | 0 => (f, out, None)
  | S fuel' =>
      let '(lb, r, e0) := ReadSlice defaultBufSize (br f) in
      let e := if err_is e0 ErrBufferFull then None else e0 in
      let f' := mk r e (identifierBytes f) lb (closed f) in
      if (1 <? length lb) && first_is GT lb then (mk r e lb lb (closed f), out, None)
      else
        let out' := if 1 <? length lb then out ++ chop_last lb else out in
        if err_is e EOF then (f', out', None)
        else if negb (is_nil e) then (f', out', e)
        else sb_loop fuel' f' out'
  end.

(** SequenceBytes(eachbyte): the reader, the bytes given to [eachbyte] and
    the returned error. *)
Definition SequenceBytes (f : reader) : reader * list byte * option goerr :=
  sb_loop (S (length (br f))) f [].

End Fasta.

(* ------------------------------------------------------------------------- *)
(** * fastFastqReader (fastq.go) *)

Module Fastq.

Record reader := mk {
  br : list byte;                 (* f.br *)
  identifierBytes : list byte;    (* f.identifierBytes *)
  lastSeqLen : nat;               (* f.lastSeqLen *)
  lastBytes : list byte;          (* f.lastBytes *)
  lastErr : option goerr;         (* f.lastErr *)
  closed : bool                   (* f.f.Close() has been called *)
}.

(** The discard loop of Next():
    [for f.lastSeqLen > 0 && f.lastErr == nil {
       skipped, f.lastErr = f.br.Discard(f.lastSeqLen); f.lastSeqLen -= skipped }] *)
Fixpoint discard_loop (fuel : nat) (f : reader) : reader :=
  match fuel with
  | 0 => f
  | S fuel' =>
      if (0 <? lastSeqLen f) && is_nil (lastErr f) then
        let '(skipped, r, e) := Discard (lastSeqLen f) (br f) in
        discard_loop fuel'
          (mk r (identifierBytes f) (lastSeqLen f - skipped) (lastBytes f) e (closed f))
      else f
  end.

(** The re-synchronisation loop of Next():
    [for len(f.identifierBytes) > 0 && f.identifierBytes[0] != '@' && f.lastErr == nil {
       f.identifierBytes, f.lastErr = f.br.ReadBytes('\n') }] *)
Fixpoint resync_loop (fuel : nat) (f : reader) : reader :=
  match fuel with
  | 0 => f
  | S fuel' =>
      if (0 <? length (identifierBytes f)) && negb (first_is AT (identifierBytes f))
         && is_nil (lastErr f) then
        let '(l, r, e) := ReadBytes (br f) in
        resync_loop fuel' (mk r l (lastSeqLen f) (lastBytes f) e (closed f))
      else f
  end.

(** The block [if f.lastSeqLen > 0 { ... }] of Next(), after which Next()
    either returns false or goes on with the header test. *)
Definition skip_quality (f : reader) : reader * bool :=
  let f2 := discard_loop (S (lastSeqLen f)) f in
  if negb (is_nil (lastErr f2)) then (f2, false)
  else
    let '(l, r, e) := ReadBytes (br f2) in
    let f3 := mk r l (lastSeqLen f2) (lastBytes f2) e (closed f2) in
    (resync_loop (S (length r)) f3, true).

(** Next(). *)
Definition Next (f : reader) : reader * bool :=
  let f1 :=
    if err_is (lastErr f) ErrNotStarted then
      let '(l, r, e) := ReadBytes (br f) in
      mk r l (lastSeqLen f) (lastBytes f) e (closed f)
    else f in
  if err_is (lastErr f1) EOF then
    (mk (br f1) (identifierBytes f1) (lastSeqLen f1) (lastBytes f1) (lastErr f1) true,
     false)
  else if negb (is_nil (lastErr f1)) then (f1, false)
  else
    let '(f2, go_on) :=
      if 0 <? lastSeqLen f1 then skip_quality f1 else (f1, true) in
    if negb go_on then (f2, false)
    else match identifierBytes f2 with
         | [] => (f2, false)
         | b :: _ => (f2, Byte.eqb b AT)
         end.

(** Err(). *)
Definition Err (f : reader) : option goerr := lastErr f.

(** Identifier(); [None] when the slice bounds are out of range. *)
Definition Identifier (f : reader) : option (list byte) :=
  let n := length (identifierBytes f) in
  if 2 <=? n then Some (firstn (n - 2) (skipn 1 (identifierBytes f)))
  else None.

(** The [for] loop of Sequence(). *)
Fixpoint seq_loop (fuel : nat) (f : reader) (seq : list byte)
  : reader * list byte :=
  match fuel with
  | 0 => (f, seq)
  | S fuel' =>
      let '(lb, r, e0) := ReadSlice defaultBufSize (br f) in
      let e := if err_is e0 ErrBufferFull then None else e0 in
      let f' := mk r (identifierBytes f) (lastSeqLen f) lb e (closed f) in
      if negb (is_nil e) then (f', seq)
      else match lb with
           | [] => (f', seq)
           | b :: _ =>
               if Byte.eqb b PLUS
               then (mk r (identifierBytes f) (length seq) lb e (closed f), seq)
               else seq_loop fuel' f' (seq ++ chop_last lb)
           end
  end.

(** Sequence(). *)
Definition Sequence (f : reader) : reader * list byte :=
  seq_loop (S (length (br f))) f [].

(** The [for] loop of SequenceBytes(eachbyte); [out] lists the bytes passed
    to the callback, and each of them increments [f.lastSeqLen]. *)
Fixpoint sb_loop (fuel : nat) (f : reader) (out : list byte)
  : reader * list byte * option goerr :=
  match fuel with
  | 0 => (f, out, None)
  | S fuel' =>
      let '(lb, r, e0) := ReadSlice defaultBufSize (br f) in
      let e := if err_is e0 ErrBufferFull then None else e0 in
      let f' := mk r (identifierBytes f) (lastSeqLen f) lb e (closed f) in
      if (1 <? length lb) && first_is PLUS lb then (f', out, None)
      else
        let emitted := if 1 <? length lb then chop_last lb else [] in
        let f'' := mk r (identifierBytes f) (lastSeqLen f + length emitted) lb e (closed f) in
        if err_is e EOF then (f'', out ++ emitted, None)
        else if negb (is_nil e) then (f'', out ++ emitted, e)
        else sb_loop fuel' f'' (out ++ emitted)
  end.

(** SequenceBytes(eachbyte): the reader, the bytes given to [eachbyte] and
    the returned error. *)
Definition SequenceBytes (f : reader) : reader * list byte * option goerr :=
  sb_loop (S (length (br f))) f [].

End Fastq.

(* ------------------------------------------------------------------------- *)
(** * Open, OpenFastq and the Reader interface *)

(** The two implementations of the Reader interface. *)
Inductive Reader :=
| RFasta (f : Fasta.reader)
| RFastq (f : Fastq.reader).

(** fastqOpenFrom(f). *)
Definition fastqOpenFrom (f : Fasta.reader) : option Reader * option goerr :=
  (Some (RFastq (Fastq.mk (Fasta.br f) [] 0 [] (Fasta.lastErr f) (Fasta.closed f))),
   None).

(** Open(filename), from the point where the (possibly decompressed) byte
    stream [s] of the file is available: os.Open and the choice of the
    decompressor are outside the model. *)
Definition Open (s : list byte) : option Reader * option goerr :=
  let f := Fasta.mk s (Some ErrNotStarted) [] [] false in
  let '(bb, err) := Peek1 (Fasta.br f) in
  match bb with
  | [b] => if Byte.eqb b AT then fastqOpenFrom f else (Some (RFasta f), err)
  | _ => (Some (RFasta f), err)
  end.

(** OpenFastq(filename), from the byte stream [s]. *)
Definition OpenFastq (s : list byte) : option Reader * option goerr :=
  let f := Fastq.mk s [] 0 [] (Some ErrNotStarted) false in
  let '(bb, err) := Peek1 (Fastq.br f) in
  match bb with
  | [b] => if Byte.eqb b AT then (Some (RFastq f), err) else (None, Some ErrNotFastq)
  | _ => (Some (RFastq f), err)
  end.

Definition Reader_Next (r : Reader) : Reader * bool :=
  match r with
  | RFasta f => let '(f', b) := Fasta.Next f in (RFasta f', b)
  | RFastq f => let '(f', b) := Fastq.Next f in (RFastq f', b)
  end.

Definition Reader_Identifier (r : Reader) : option (list byte) :=
  match r with
  | RFasta f => Fasta.Identifier f
  | RFastq f => Fastq.Identifier f
  end.

Definition Reader_Sequence (r : Reader) : Reader * list byte :=
  match r with
  | RFasta f => let '(f', s) := Fasta.Sequence f in (RFasta f', s)
  | RFastq f => let '(f', s) := Fastq.Sequence f in (RFastq f', s)
  end.

Definition Reader_Err (r : Reader) : option goerr :=
  match r with
  | RFasta f => Fasta.Err f
  | RFastq f => Fastq.Err f
  end.

(* ------------------------------------------------------------------------- *)
(** * cmd/fq2fa *)

Module Fq2fa.

Record Seq := mkSeq { Identifier : list byte; Sequence : list byte }.

(** The inner loop of convertFile:
    [for rdr.Next() { ...; seqChan <- Seq{rdr.Identifier(), rdr.Sequence()} }]
    followed by [if err := rdr.Err(); err != nil && err != io.EOF { panic(err) }].
    The records sent, in order; [None] for a panic.  [fuel] bounds the number
    of records. *)
Fixpoint read_loop (fuel : nat) (r : Reader) : option (list Seq) :=
  match fuel with
  | 0 => None
  | S fuel' =>
      let '(r1, ok) := Reader_Next r in
      if ok then
        match Reader_Identifier r1 with
        | None => None
        | Some id =>
            let '(r2, sq) := Reader_Sequence r1 in
            match read_loop fuel' r2 with
            | Some rest => Some (mkSeq id sq :: rest)
            | None => None
            end
        end
      else match Reader_Err r1 with
           | None => Some []
           | Some e => if goerr_eqb e EOF then Some [] else None
           end
  end.

(** One file of convertFile: [rdr, err := goseq.Open(fn); if err != nil { panic(err) }]
    then the loop above. *)
Definition convertFile (fuel : nat) (s : list byte) : option (list Seq) :=
  match Open s with
  | (Some r, None) => read_loop fuel r
  | _ => None
  end.

(** The wrapping loop of seqWriter for one sequence:
    [for len(s.Sequence) > 80 { fmt.Fprintln(w, s.Sequence[:80]);
       s.Sequence = s.Sequence[80:] }; fmt.Fprintln(w, s.Sequence)].
    Each pass removes 80 bytes, so [length s] passes suffice. *)
Fixpoint wrap_loop (fuel : nat) (s : list byte) : list byte :=
  match fuel with
  | 0 => s ++ [NL]
  | S fuel' =>
      if 80 <? length s then firstn 80 s ++ [NL] ++ wrap_loop fuel' (skipn 80 s)
      else s ++ [NL]
  end.

Definition wrap (s : list byte) : list byte := wrap_loop (length s) s.

(** The body of [for s := range seqChan] in seqWriter. *)
Definition write_record (s : Seq) : list byte :=
  [GT] ++ Identifier s ++ [NL] ++ wrap (Sequence s).

(** The bytes seqWriter writes for the records it receives, in order. *)
Definition seqWriter (recs : list Seq) : list byte :=
  List.concat (map write_record recs).

(** [subs[i] <- s] on the channel buffers (as FIFO contents). *)
Definition send {A} (subs : list (list A)) (i : nat) (s : A) : list (list A) :=
  firstn i subs ++ (nth i subs [] ++ [s]) :: skipn (S i) subs.

(** One pass of the loop of fanWriters:
    [for s := range seqChan { subs[idx%n] <- s; idx++ }]. *)
Definition fan_step {A} (n : nat) (st : list (list A) * nat) (s : A)
  : list (list A) * nat :=
  let '(subs, idx) := st in (send subs (idx mod n) s, S idx).

(** fanWriters(n, ...): what each of the [n] destination channels has
    received and the count [idx] logged as "Split %d sequences.". *)
Definition fanWriters {A} (n : nat) (recs : list A) : list (list A) * nat :=
  fold_left (fan_step n) recs (repeat [] n, 0).

End Fq2fa.

(** The records that fanWriters should hand to destination [d] of [n]: those
    whose global arrival index [i] (counted from [k]) has [i mod n = d], in
    arrival order. *)
Fixpoint assigned_from {A} (n d k : nat) (recs : list A) : list A :=
  match recs with
  | [] => []
  | r :: rs => (if k mod n =? d then [r] else []) ++ assigned_from n d (S k) rs
  end.

(** Inputs used below. *)
Definition fasta_scenario : list byte := lns [">s1"; "ACGTACGT"; ">s2"; "TTTT"]%string.

(** A FASTA record whose single sequence line is 4098 bytes long: 4095 'A',
    then "CGT". *)
Definition long_line_input : list byte :=
  lns [">s"]%string ++ repeat x41 4095 ++ bs "CGT" ++ [NL].

(** A FASTA file whose second header line is 4177 bytes long and contains a
    '>' in its description. *)
Definition long_header_input : list byte :=
  lns [">a"; "AC"]%string ++ [GT] ++ repeat x62 4095 ++ repeat x63 80 ++ bs ">d"
  ++ [NL] ++ lns ["GG"]%string.

(** A FASTQ record whose six quality bytes are wrapped over three lines, the
    last of them starting with '@' (Phred+33 quality 31). *)
Definition wrapped_quality_input : list byte :=
  lns ["@r1"; "ACGTAC"; "+"; "!!"; "!!"; "@!"; "@r2"; "GG"; "+"; "II"]%string.

(* ------------------------------------------------------------------------- *)
(** * Packed k-mers (kmers.go) *)

Module Kmers.

Local Open Scope Z_scope.

(** A Kmer is a uint64, modelled as a [Z] in [0, 2^64); Go arithmetic on it
    wraps modulo 2^64. *)
Definition wrap64 (z : Z) : Z := z mod 2 ^ 64.

(** [InvalidKmer = ^Kmer(0)]. *)
Definition InvalidKmer : Z := wrap64 (Z.lnot 0).

Definition MaxKmerSize : Z := 32.

Record BaseKmer := mkBase { k : Z; mask : Z }.

(** The error of NewKmerBase: "kmer size k=%d is too large (max %d)". *)
Inductive kmer_error := KmerTooLarge (k : N).

(** NewKmerBase(k uint): [mask = Kmer(1<<(k*2)) - 1], the shift and the
    subtraction both in uint64 (a shift by 64 gives 0). *)
Definition NewKmerBase (k : N) : option BaseKmer * option kmer_error :=
  if MaxKmerSize <? Z.of_N k then (None, Some (KmerTooLarge k))
  else (Some (mkBase (Z.of_N k) (wrap64 (wrap64 (Z.shiftl 1 (Z.of_N k * 2)) - 1))), None).

(** Length(). *)
Definition Length (b : BaseKmer) : Z := k b.

(** Count(): [1 + uint64(b.mask)]. *)
Definition Count (b : BaseKmer) : Z := wrap64 (1 + mask b).

(** AppendBase(&km, nuc): the new value of [*k]. *)
Definition AppendBase (b : BaseKmer) (km : Z) (nuc : byte) : Z :=
  let k1 := Z.land (mask b) (wrap64 (Z.shiftl km 2)) in
  match nuc with
  | x41 | x61 => k1               (* 'A', 'a' *)
  | x43 | x63 => Z.lor k1 1       (* 'C', 'c' *)
  | x47 | x67 => Z.lor k1 2       (* 'G', 'g' *)
  | x54 | x74 => Z.lor k1 3       (* 'T', 't' *)
  | _ => k1
  end.

(** The switch of String() on [(k >> uint(i*2)) & 3]. *)
Definition base_letter (d : Z) : list byte :=
  if d =? 0 then [x61] else if d =? 1 then [x63]
  else if d =? 2 then [x67] else if d =? 3 then [x74] else [].

(** [for i := n-1; i >= 0; i-- { ... }] in String(). *)
Fixpoint string_loop (n : nat) (km : Z) : list byte :=
  match n with
  | O => []
  | S i => base_letter (Z.land (Z.shiftr km (Z.of_nat i * 2)) 3) ++ string_loop i km
  end.

(** String(k). *)
Definition String (b : BaseKmer) (km : Z) : list byte :=
  if km =? InvalidKmer then repeat x2d (Z.to_nat (k b))   (* strings.Repeat("-", b.k) *)
  else string_loop (Z.to_nat (k b)) km.

(** The k-mer a caller obtains from a zero Kmer by calling AppendBase on each
    byte of [s] in turn. *)
Definition pack (b : BaseKmer) (s : list byte) : Z := fold_left (AppendBase b) s 0.

End Kmers.

(* ------------------------------------------------------------------------- *)
(** * strings and path/filepath (Unix separator '/') *)

Module GoPath.

Definition DOT : byte := x2e.     (* '.' *)
Definition SLASH : byte := x2f.   (* '/' *)

Fixpoint bytes_eqb (a b : list byte) : bool :=
  match a, b with
  | [], [] => true
  | x :: a', y :: b' => Byte.eqb x y && bytes_eqb a' b'
  | _, _ => false
  end.

(** strings.HasSuffix(s, suffix). *)
Definition HasSuffix (s suffix : list byte) : bool :=
  (length suffix <=? length s) && bytes_eqb (skipn (length s - length suffix) s) suffix.

(** strings.TrimSuffix(s, suffix). *)
Definition TrimSuffix (s suffix : list byte) : list byte :=
  if HasSuffix s suffix then firstn (length s - length suffix) s else s.

(** [for i := len(path) - 1; i >= 0 && !os.IsPathSeparator(path[i]); i-- {
       if path[i] == '.' { return path[i:] } }; return ""]; the argument [n]
    is [i + 1]. *)
Fixpoint ext_loop (n : nat) (path : list byte) : list byte :=
  match n with
  | 0 => []
  | S i =>
      let c := nth i path x00 in
      if Byte.eqb c SLASH then []
      else if Byte.eqb c DOT then skipn i path
      else ext_loop i path
  end.

(** filepath.Ext(path). *)
Definition Ext (path : list byte) : list byte := ext_loop (length path) path.

(** [for len(path) > 0 && os.IsPathSeparator(path[len(path)-1]) {
       path = path[0 : len(path)-1] }]. *)
Fixpoint trim_slashes (fuel : nat) (path : list byte) : list byte :=
  match fuel with
  | 0 => path
  | S fuel' =>
      if (0 <? length path) && Byte.eqb (nth (length path - 1) path x00) SLASH
      then trim_slashes fuel' (firstn (length path - 1) path)
      else path
  end.

(** [i := len(path) - 1; for i >= 0 && !os.IsPathSeparator(path[i]) { i-- }];
    [Some i] for the final [i >= 0], [None] for [i = -1]. *)
Fixpoint last_sep (n : nat) (path : list byte) : option nat :=
  match n with
  | 0 => None
  | S i => if Byte.eqb (nth i path x00) SLASH then Some i else last_sep i path
  end.

(** filepath.Base(path) (the volume name is empty on Unix). *)
Definition Base (path : list byte) : list byte :=
  match path with
  | [] => [DOT]
  | _ =>
      let p1 := trim_slashes (length path) path in
      let p2 := match last_sep (length p1) p1 with
                | Some i => skipn (S i) p1
                | None => p1
                end in
      match p2 with [] => [SLASH] | _ => p2 end
  end.

End GoPath.

(* ------------------------------------------------------------------------- *)
(** * cmd/fq2fa: output file names *)

Module Fq2faMain.

Import GoPath.

(** The loop of stripExtenstions: [for ext != "" { fn = strings.TrimSuffix(fn, ext);
    ext = filepath.Ext(fn) }].  Each pass removes at least one byte. *)
Fixpoint strip_loop (fuel : nat) (fn ext : list byte) : list byte :=
  match fuel with
  | 0 => fn
  | S fuel' =>
      match ext with
      | [] => fn
      | _ => let fn' := TrimSuffix fn ext in strip_loop fuel' fn' (Ext fn')
      end
  end.

(** stripExtenstions(fn). *)
Definition stripExtenstions (fn : list byte) : list byte :=
  strip_loop (S (length fn)) fn (Ext fn).

(** The [switch] on [*noutputs] in main(). *)
Definition seq_verb (noutputs : Z) : list byte :=
  if (noutputs =? 1)%Z then []
  else if (noutputs <? 10)%Z then bs "%01d"
  else if (noutputs <? 100)%Z then bs "%02d"
  else if (noutputs <? 1000)%Z then bs "%03d"
  else if (noutputs <? 10000)%Z then bs "%04d"
  else bs "%08d".

(** The output pattern main() derives from the flags -o, -n and -z and the
    input files; [None] when there is no input file (os.Exit(1)). *)
Definition outputPattern (o : list byte) (files : list (list byte)) (noutputs : Z)
    (compress : bool) : option (list byte) :=
  match files with
  | [] => None
  | f0 :: others =>
      let p := match o with
               | [] =>
                   let base := match others with
                               | [] => stripExtenstions f0
                               | _ => Base f0
                               end in
                   base ++ seq_verb noutputs ++ bs ".fasta"
               | _ => o
               end in
      Some (if compress && negb (HasSuffix p (bs "gz")) then p ++ bs ".gz" else p)
  end.

End Fq2faMain.

(* ------------------------------------------------------------------------- *)
(** * Progress() *)

(** Progress() of both readers (goseq.go and fastq.go):
    [info, err := f.f.Stat(); if err != nil || info.Size() <= 0 { return -1.0 }
     pos, err := f.f.Seek(0, os.SEEK_CUR); if err != nil { return -1.0 }
     return float64(pos*100.0) / float64(info.Size())]
    The file size and the offset are what the operating system reports; they
    are inputs of the model.  A float64 is a binary64 [spec_float]. *)
Module FileProgress.
Local Open Scope Z_scope.






End FileProgress.

(* ------------------------------------------------------------------------- *)
(** * Reference notions used in the statements below *)

(** The 2-bit code AppendBase ORs in for a byte, and the letter String()
    prints for that code. *)
Definition base_code (nuc : byte) : Z :=
  match nuc with
  | x43 | x63 => 1 | x47 | x67 => 2 | x54 | x74 => 3 | _ => 0
  end%Z.

Definition base_char (nuc : byte) : byte :=
  match nuc with
  | x43 | x63 => x63 | x47 | x67 => x67 | x54 | x74 => x74 | _ => x61
  end.

Definition is_T (c : byte) : bool := match c with x54 | x74 => true | _ => false end.

(** The last [n] elements of a list. *)
Definition lastn {A} (n : nat) (l : list A) : list A := skipn (length l - n) l.

(** The bases of [l] as a base-4 number, the first base most significant. *)
Definition enc_step (a : Z) (c : byte) : Z := (4 * a + base_code c)%Z.

Definition enc (l : list byte) : Z := fold_left enc_step l 0%Z.

(** The bytes of a file name element before its first '.'. *)
Fixpoint upto_dot (l : list byte) : list byte :=
  match l with
  | [] => []
  | c :: r => if Byte.eqb c GoPath.DOT then [] else c :: upto_dot r
  end.

(** A FASTA text: for each record, '>' and the identifier on one line, then
    its sequence lines. *)
Definition fasta_text (recs : list (list byte * list (list byte))) : list byte :=
  List.concat (map (fun r => GT :: fst r ++ NL :: lines (snd r)) recs).

(** A FASTQ record: identifier, sequence lines, the text after '+', and the
    quality line. *)
Record fq_record := FqRec {
  fq_id : list byte; fq_seq : list (list byte); fq_sep : list byte; fq_qual : list byte }.

Definition fastq_text (recs : list fq_record) : list byte :=
  List.concat (map (fun r => AT :: fq_id r ++ NL :: lines (fq_seq r)
                             ++ PLUS :: fq_sep r ++ NL :: fq_qual r ++ [NL]) recs).

(** Shapes of the inputs of the properties below. *)

(** A directory part: empty or ending in '/'. *)
Definition dir_part (dir : list byte) : Prop := dir = [] \/ exists d, dir = d ++ [GoPath.SLASH].

(** A sequence line Sequence() reads whole: no '\n', shorter than the
    buffer, not starting with '>'. *)
Definition fasta_line_ok (l : list byte) : Prop :=
  ~ In NL l /\ S (length l) <= defaultBufSize /\ first_is GT l = false.

(** A FASTA record (identifier, sequence lines) whose header line Next()
    and Sequence() read whole. *)
Definition fasta_rec_ok (r : list byte * list (list byte)) : Prop :=
  ~ In NL (fst r) /\ S (S (length (fst r))) <= defaultBufSize /\ Forall fasta_line_ok (snd r).

(** A record seqWriter can write so that it reads back. *)
Definition writable (s : Fq2fa.Seq) : Prop :=
  ~ In NL (Fq2fa.Identifier s) /\ S (S (length (Fq2fa.Identifier s))) <= defaultBufSize
  /\ ~ In NL (Fq2fa.Sequence s) /\ ~ In GT (Fq2fa.Sequence s).

(** A FASTQ sequence line Sequence() reads whole: no '\n', shorter than
    the buffer, not starting with '+'. *)
Definition fq_line_ok (l : list byte) : Prop :=
  ~ In NL l /\ S (length l) <= defaultBufSize /\ first_is PLUS l = false.

(** A FASTQ record as written by a sequencer: one-line identifier and '+'
    line, sequence lines as above, a quality string as long as the sequence,
    and a non-empty sequence. *)
Definition fq_rec_ok (r : fq_record) : Prop :=
  ~ In NL (fq_id r) /\ Forall fq_line_ok (fq_seq r)
  /\ ~ In NL (fq_sep r) /\ S (S (length (fq_sep r))) <= defaultBufSize
  /\ length (fq_qual r) = length (List.concat (fq_seq r))
  /\ 0 < length (List.concat (fq_seq r)).

(** The reader Next() leaves when the next header is read from [t]. *)
Definition fq_next_state (t : list byte) (f : Fastq.reader) : Fastq.reader * bool :=
  let g := let '(l, r, e) := ReadBytes t in
           Fastq.mk r l 0 (Fastq.lastBytes f) e (Fastq.closed f) in
  (g, match Fastq.identifierBytes g with
      | [] => false
      | b :: _ => Byte.eqb b AT
      end).

(** The rest of Next() once the discard loop has consumed the [lastSeqLen]
    quality bytes and left [rest]: ReadBytes('\n'), the
    re-synchronisation loop and the header test. *)
Definition fq_after_discard (rest : list byte) (f : Fastq.reader) : Fastq.reader * bool :=
  let '(l, r, e) := ReadBytes rest in
  let g := Fastq.resync_loop (S (length r))
             (Fastq.mk r l 0 (Fastq.lastBytes f) e (Fastq.closed f)) in
  (g, match Fastq.identifierBytes g with
      | [] => false
      | b :: _ => Byte.eqb b AT
      end).


(* ========================================================================= *)
(** * Proofs *)

Lemma byte_eqb_true (x y : byte) : Byte.eqb x y = true <-> x = y.
Proof. split; [apply byte_dec_bl | apply byte_dec_lb]. Qed.

Lemma byte_eqb_refl (x : byte) : Byte.eqb x x = true.
Proof. apply byte_dec_lb; reflexivity. Qed.

Lemma byte_eqb_false (x y : byte) : x <> y -> Byte.eqb x y = false.
Proof.
  intro H. destruct (Byte.eqb x y) eqn:E; [|reflexivity].
  apply byte_dec_bl in E. contradiction.
Qed.

Lemma split_line_head (b : byte) (s l r : list byte) :
  split_line (b :: s) = Some (l, r) -> exists t, l = b :: t.
Proof.
  simpl. destruct (Byte.eqb b NL).
  - intros [= <- _]. eauto.
  - destruct (split_line s) as [[l' r']|]; [intros [= <- _]; eauto | discriminate].
Qed.

Lemma ReadBytes_head (b : byte) (s l r : list byte) (e : option goerr) :
  ReadBytes (b :: s) = (l, r, e) -> exists t, l = b :: t.
Proof.
  unfold ReadBytes. destruct (split_line (b :: s)) as [[l' r']|] eqn:E.
  - intros [= <- _ _]. eapply split_line_head; eauto.
  - intros [= <- _ _]. eauto.
Qed.

(* ------------------------------------------------------------------------- *)
(** ** C1: format detection in Open *)

(** C1 (counterexample): the input "xyz\n" starts with neither '>' nor '@',
    yet Open returns a reader and a nil error. *)
Lemma C1_open_unrecognised_no_error :
  exists r, Open (lns ["xyz"]%string) = (Some r, None).
Proof. eexists. vm_compute. reflexivity. Qed.

(** C1 (amended): for a non-empty input whose first byte is neither '>' nor
    '@', Open returns a FASTA reader and no error, and the first Next() of
    that reader returns false; only OpenFastq rejects such an input, with
    "goseq: not a fastq file". *)
Theorem C1_open_defaults_to_fasta (b : byte) (rest : list byte) :
  b <> AT -> b <> GT ->
  let f := Fasta.mk (b :: rest) (Some ErrNotStarted) [] [] false in
  Open (b :: rest) = (Some (RFasta f), None)
  /\ snd (Reader_Next (RFasta f)) = false
  /\ OpenFastq (b :: rest) = (None, Some ErrNotFastq).
Proof.
  intros Hat Hgt f.
  assert (Eat : Byte.eqb b AT = false) by (apply byte_eqb_false; exact Hat).
  assert (Egt : Byte.eqb b GT = false) by (apply byte_eqb_false; exact Hgt).
  split; [|split].
  - unfold Open; simpl. rewrite Eat. reflexivity.
  - unfold Reader_Next, Fasta.Next; simpl.
    destruct (ReadBytes (b :: rest)) as [[l r] e] eqn:E.
    destruct (ReadBytes_head _ _ _ _ _ E) as [t ->].
    destruct e as [[]|]; simpl; try reflexivity.
    rewrite Egt. reflexivity.
  - unfold OpenFastq; simpl. rewrite Eat. reflexivity.
Qed.

Lemma C1_open_defaults_to_fasta_witness :
  x78 <> AT /\ x78 <> GT /\
  (let f := Fasta.mk [x78] (Some ErrNotStarted) [] [] false in
   Open [x78] = (Some (RFasta f), None)
   /\ snd (Reader_Next (RFasta f)) = false
   /\ OpenFastq [x78] = (None, Some ErrNotFastq)).
Proof.
  split; [discriminate|]. split; [discriminate|].
  apply C1_open_defaults_to_fasta; discriminate.
Defined.

(* ------------------------------------------------------------------------- *)
(** ** C2: sequence lines longer than the read buffer *)

(** C2 (code_bug): for a 4098-byte sequence line, Sequence() and
    SequenceBytes() both yield 4097 bytes: the 'C' that ends the first
    4096-byte buffer is dropped, because the ErrBufferFull chunk is cut as
    if its last byte were the '\n'. *)
Theorem C2_long_line_drops_byte :
  let f := fst (Fasta.Next (Fasta.mk long_line_input (Some ErrNotStarted) [] [] false)) in
  snd (Fasta.Sequence f) = repeat x41 4095 ++ bs "GT"
  /\ snd (fst (Fasta.SequenceBytes f)) = repeat x41 4095 ++ bs "GT"
  /\ snd (Fasta.Sequence f) <> repeat x41 4095 ++ bs "CGT".
Proof.
  split; [vm_compute; reflexivity|]. split; [vm_compute; reflexivity|].
  intro H. apply (f_equal (@length byte)) in H. vm_compute in H. discriminate.
Qed.

(* ------------------------------------------------------------------------- *)
(** ** C10: empty input *)

(** C10: for an empty input Open returns a FASTA reader together with
    io.EOF, and Next() on that reader returns false. *)
Theorem C10_open_empty :
  let f := Fasta.mk [] (Some ErrNotStarted) [] [] false in
  Open [] = (Some (RFasta f), Some EOF) /\ snd (Reader_Next (RFasta f)) = false.
Proof. split; reflexivity. Qed.

(* ------------------------------------------------------------------------- *)
(** ** C9: using a reader before Next() *)

Lemma ReadSlice_err_cases (B : nat) (s l r : list byte) (e : option goerr) :
  ReadSlice B s = (l, r, e) -> e = None \/ e = Some ErrBufferFull \/ e = Some EOF.
Proof.
  unfold ReadSlice.
  destruct (split_line s) as [[l' r']|];
    [destruct (length l' <=? B) | destruct (B <=? length s)];
    intros [= _ _ <-]; auto.
Qed.

Lemma cleared_err_nil_or_eof (e0 : option goerr) :
  e0 = None \/ e0 = Some ErrBufferFull \/ e0 = Some EOF ->
  let e := if err_is e0 ErrBufferFull then None else e0 in e = None \/ e = Some EOF.
Proof. intros [->|[->| ->]]; simpl; auto. Qed.

Lemma Fasta_seq_loop_nil_or_eof (fuel : nat) (f : Fasta.reader) (acc : list byte) :
  Fasta.lastErr f = None \/ Fasta.lastErr f = Some EOF \/ 0 < fuel ->
  let e := Fasta.lastErr (fst (Fasta.seq_loop fuel f acc)) in e = None \/ e = Some EOF.
Proof.
  revert f acc. induction fuel as [|fuel IH]; intros f acc H.
  - destruct H as [H|[H|H]]; [left; exact H | right; exact H | inversion H].
  - simpl. destruct (ReadSlice defaultBufSize (Fasta.br f)) as [[lb r] e0] eqn:E.
    pose proof (cleared_err_nil_or_eof e0 (ReadSlice_err_cases _ _ _ _ _ E)) as He.
    cbv zeta in He.
    destruct (negb (is_nil _)); [exact He|].
    destruct lb as [|b t]; [exact He|].
    destruct (Byte.eqb b GT); [exact He|].
    apply IH. simpl. destruct He as [He|He]; auto.
Qed.

Lemma Fastq_seq_loop_nil_or_eof (fuel : nat) (f : Fastq.reader) (acc : list byte) :
  Fastq.lastErr f = None \/ Fastq.lastErr f = Some EOF \/ 0 < fuel ->
  let e := Fastq.lastErr (fst (Fastq.seq_loop fuel f acc)) in e = None \/ e = Some EOF.
Proof.
  revert f acc. induction fuel as [|fuel IH]; intros f acc H.
  - destruct H as [H|[H|H]]; [left; exact H | right; exact H | inversion H].
  - simpl. destruct (ReadSlice defaultBufSize (Fastq.br f)) as [[lb r] e0] eqn:E.
    pose proof (cleared_err_nil_or_eof e0 (ReadSlice_err_cases _ _ _ _ _ E)) as He.
    cbv zeta in He.
    destruct (negb (is_nil _)); [exact He|].
    destruct lb as [|b t]; [exact He|].
    destruct (Byte.eqb b PLUS); [exact He|].
    apply IH. simpl. destruct He as [He|He]; auto.
Qed.

(** C9 (counterexample): on the reader Open returns for ">s1\nAC\n",
    Identifier() before Next() has no value (an out-of-range slice, i.e. a
    run-time panic) and Sequence() before Next() returns "" and leaves Err()
    at nil, not at errNotStarted. *)
Lemma C9_sequence_before_next_clears_err :
  exists r, Open (lns [">s1"; "AC"]%string) = (Some r, None)
  /\ Reader_Identifier r = None
  /\ snd (Reader_Sequence r) = []
  /\ Reader_Err (fst (Reader_Sequence r)) = None.
Proof. eexists. vm_compute. repeat split. Qed.

(** C9 (amended): every reader Open returns starts with Err() =
    errNotStarted; its Identifier() has no value (the slice of the empty
    identifier line is out of range, a run-time panic rather than an error
    value); its Sequence() is not rejected: it reads from the stream and
    leaves the outcome of its last read, nil or io.EOF, in Err(). *)
Theorem C9_before_next (s : list byte) (r : Reader) :
  fst (Open s) = Some r ->
  Reader_Err r = Some ErrNotStarted
  /\ Reader_Identifier r = None
  /\ (Reader_Err (fst (Reader_Sequence r)) = None
      \/ Reader_Err (fst (Reader_Sequence r)) = Some EOF).
Proof.
  unfold Open. destruct s as [|b t]; simpl.
  - intros [= <-]. split; [reflexivity|]. split; [reflexivity|].
    right. reflexivity.
  - destruct (Byte.eqb b AT); simpl; intros [= <-];
      (split; [reflexivity|]); (split; [reflexivity|]); simpl.
    + unfold Fastq.Sequence.
      match goal with |- context [Fastq.seq_loop ?n ?f []] =>
        pose proof (Fastq_seq_loop_nil_or_eof n f [] (or_intror (or_intror (Nat.lt_0_succ _)))) as Hx;
        destruct (Fastq.seq_loop n f []); exact Hx end.
    + unfold Fasta.Sequence.
      match goal with |- context [Fasta.seq_loop ?n ?f []] =>
        pose proof (Fasta_seq_loop_nil_or_eof n f [] (or_intror (or_intror (Nat.lt_0_succ _)))) as Hx;
        destruct (Fasta.seq_loop n f []); exact Hx end.
Qed.

Lemma C9_before_next_witness :
  exists r, fst (Open (lns [">s1"; "AC"]%string)) = Some r
  /\ Reader_Err r = Some ErrNotStarted
  /\ Reader_Identifier r = None
  /\ (Reader_Err (fst (Reader_Sequence r)) = None
      \/ Reader_Err (fst (Reader_Sequence r)) = Some EOF).
Proof.
  eexists. split; [vm_compute; reflexivity|].
  apply (C9_before_next (lns [">s1"; "AC"]%string)). vm_compute. reflexivity.
Defined.

(* ------------------------------------------------------------------------- *)
(** ** C7: FASTA round trip through seqWriter *)

(** C7 (code_bug): decoding [long_header_input] gives two records; writing
    them with seqWriter and decoding again gives three.  The first decoding
    takes the first 4096 bytes of the long header line (an ErrBufferFull
    chunk) as the whole header and the rest of that line as sequence data;
    the '>' of the description then starts a wrapped output line. *)
Theorem C7_round_trip_breaks :
  let d1 := Fq2fa.convertFile 100 long_header_input in
  let d2 := match d1 with
            | Some recs => Fq2fa.convertFile 100 (Fq2fa.seqWriter recs)
            | None => None
            end in
  option_map (@length _) d1 = Some 2 /\ option_map (@length _) d2 = Some 3
  /\ d1 <> d2.
Proof.
  cbv zeta. split; [vm_compute; reflexivity|]. split; [vm_compute; reflexivity|].
  intro H. apply (f_equal (option_map (@length _))) in H.
  vm_compute in H. discriminate.
Qed.

(* ------------------------------------------------------------------------- *)
(** ** C3: skipping the quality block *)

(** C3 (counterexample): with the six quality bytes of "ACGTAC" wrapped as
    "!!", "!!", "@!", the second Next() discards the six raw bytes "!!\n!!\n"
    (four quality bytes and two line terminators) and takes the quality line
    "@!" as the next header. *)
Lemma C3_wrapped_quality_misread :
  let f0 := Fastq.mk wrapped_quality_input [] 0 [] (Some ErrNotStarted) false in
  let f1 := fst (Fastq.Next f0) in
  let '(f2, sq) := Fastq.Sequence f1 in
  let '(f3, ok) := Fastq.Next f2 in
  sq = bs "ACGTAC"
  /\ Fastq.br f2 = lns ["!!"; "!!"; "@!"; "@r2"; "GG"; "+"; "II"]%string
  /\ ok = true
  /\ Fastq.identifierBytes f3 = lns ["@!"]%string
  /\ Fastq.br f3 = lns ["@r2"; "GG"; "+"; "II"]%string.
Proof. vm_compute. repeat split. Qed.

(* ------------------------------------------------------------------------- *)
(** ** C5: round-robin sharding in fanWriters *)

Section Sharding.

Context {A : Type}.

Lemma send_cons (x : list A) (xs : list (list A)) (i : nat) (s : A) :
  Fq2fa.send (x :: xs) (S i) s = x :: Fq2fa.send xs i s.
Proof. reflexivity. Qed.

Lemma length_send (subs : list (list A)) (i : nat) (s : A) :
  i < length subs -> length (Fq2fa.send subs i s) = length subs.
Proof.
  revert subs. induction i as [|i IH]; intros [|x xs] H; simpl in H; try lia.
  - reflexivity.
  - rewrite send_cons. simpl. rewrite IH; [reflexivity | lia].
Qed.

Lemma nth_send (subs : list (list A)) (i d : nat) (s : A) :
  i < length subs ->
  nth d (Fq2fa.send subs i s) [] =
  if d =? i then nth d subs [] ++ [s] else nth d subs [].
Proof.
  revert subs d. induction i as [|i IH]; intros [|x xs] d H; simpl in H; try lia.
  - destruct d; reflexivity.
  - rewrite send_cons. destruct d as [|d]; [reflexivity|].
    simpl. apply IH. lia.
Qed.

Lemma assigned_from_snoc (n d k : nat) (rs : list A) (r : A) :
  assigned_from n d k (rs ++ [r]) =
  assigned_from n d k rs ++ (if (k + length rs) mod n =? d then [r] else []).
Proof.
  revert k. induction rs as [|x rs IH]; intro k; simpl.
  - rewrite Nat.add_0_r, app_nil_r. reflexivity.
  - rewrite IH, app_assoc, Nat.add_succ_r. reflexivity.
Qed.

Lemma fanWriters_inv (n : nat) (recs : list A) :
  0 < n ->
  length (fst (Fq2fa.fanWriters n recs)) = n
  /\ snd (Fq2fa.fanWriters n recs) = length recs
  /\ forall d, d < n -> nth d (fst (Fq2fa.fanWriters n recs)) [] = assigned_from n d 0 recs.
Proof.
  intro Hn. induction recs as [|r recs IH] using rev_ind.
  - unfold Fq2fa.fanWriters; simpl. split; [apply repeat_length|]. split; [reflexivity|].
    intros d Hd. apply nth_repeat.
  - unfold Fq2fa.fanWriters in *. rewrite fold_left_app.
    destruct (fold_left (Fq2fa.fan_step n) recs (repeat [] n, 0)) as [subs idx].
    simpl in IH |- *. destruct IH as (Hlen & -> & Hnth).
    assert (Hi : length recs mod n < length subs) by (rewrite Hlen; apply Nat.mod_upper_bound; lia).
    split; [rewrite length_send; assumption|].
    split; [rewrite length_app; simpl; lia|].
    intros d Hd. rewrite nth_send by exact Hi. rewrite assigned_from_snoc, <- Hnth by exact Hd.
    simpl. rewrite (Nat.eqb_sym d).
    destruct (length recs mod n =? d); [reflexivity | symmetry; apply app_nil_r].
Qed.

End Sharding.

(** C5: for [n >= 1] destinations, fanWriters hands the record with global
    arrival index [i] (counted from 0) to destination [i mod n]: destination
    [d] receives exactly the records with [i mod n = d], in arrival order,
    and the count it reports equals the number of records received. *)
Theorem C5_fanWriters_round_robin {A : Type} (n : nat) (recs : list A) :
  0 < n ->
  let '(subs, cnt) := Fq2fa.fanWriters n recs in
  length subs = n /\ cnt = length recs
  /\ forall d, d < n -> nth d subs [] = assigned_from n d 0 recs.
Proof.
  intro Hn. pose proof (fanWriters_inv n recs Hn) as H.
  destruct (Fq2fa.fanWriters n recs) as [subs cnt]. exact H.
Qed.

Lemma C5_fanWriters_round_robin_witness :
  0 < 2 /\
  (let '(subs, cnt) := Fq2fa.fanWriters 2 [0; 1; 2; 3] in
   length subs = 2 /\ cnt = length [0; 1; 2; 3]
   /\ forall d, d < 2 -> nth d subs [] = assigned_from 2 d 0 [0; 1; 2; 3]).
Proof.
  split; [repeat constructor|]. apply (C5_fanWriters_round_robin 2 [0; 1; 2; 3]).
  repeat constructor.
Defined.

(** The scenario of the spec: two destinations, records r0..r3. *)
Example fanWriters_two_of_four : Fq2fa.fanWriters 2 [0; 1; 2; 3] = ([[0; 2]; [1; 3]], 4).
Proof. reflexivity. Qed.

(* ------------------------------------------------------------------------- *)
(** ** C6: the FASTA text written by seqWriter *)

Lemma wrap_loop_shape (fuel : nat) (s : list byte) :
  length s <= 80 * S fuel ->
  exists full last,
    Fq2fa.wrap_loop fuel s = lines full ++ last ++ [NL]
    /\ Forall (fun c => length c = 80) full /\ length last <= 80
    /\ List.concat full ++ last = s.
Proof.
  revert s. induction fuel as [|fuel IH]; intros s Hs.
  - exists [], s. simpl. repeat split; [constructor | lia].
  - cbn [Fq2fa.wrap_loop]. destruct (80 <? length s) eqn:E.
    + apply Nat.ltb_lt in E.
      destruct (IH (skipn 80 s)) as (full & last & Hw & Hf & Hl & Hc).
      { rewrite length_skipn. lia. }
      exists (firstn 80 s :: full), last. rewrite Hw.
      split; [unfold lines; cbn [map List.concat]; rewrite !app_assoc; reflexivity|].
      split; [constructor; [rewrite length_firstn; lia | exact Hf]|].
      split; [exact Hl|].
      cbn [List.concat]. rewrite <- app_assoc, Hc. apply firstn_skipn.
    + apply Nat.ltb_ge in E.
      exists [], s. repeat split; [constructor | exact E].
Qed.

(** C6: seqWriter writes each record as '>' and the identifier on one line,
    then the sequence in lines of exactly 80 bytes followed by a last line of
    at most 80 bytes (empty for an empty sequence), each ended by '\n'; and
    decoding ">s1\nACGTACGT\n>s2\nTTTT\n" and writing the records back gives
    the input unchanged. *)
Theorem C6_seqWriter_format :
  (forall s : Fq2fa.Seq, exists full last,
     Fq2fa.write_record s = [GT] ++ Fq2fa.Identifier s ++ [NL] ++ lines full ++ last ++ [NL]
     /\ Forall (fun c => length c = 80) full /\ length last <= 80
     /\ List.concat full ++ last = Fq2fa.Sequence s)
  /\ option_map Fq2fa.seqWriter (Fq2fa.convertFile 3 fasta_scenario) = Some fasta_scenario.
Proof.
  split; [|vm_compute; reflexivity].
  intro s. destruct (wrap_loop_shape (length (Fq2fa.Sequence s)) (Fq2fa.Sequence s))
    as (full & last & Hw & Hf & Hl & Hc); [lia|].
  exists full, last. unfold Fq2fa.write_record, Fq2fa.wrap. rewrite Hw. auto.
Qed.

(* ------------------------------------------------------------------------- *)
(** ** Lines and the bufio reads *)

Lemma split_line_app (l r : list byte) :
  ~ In NL l -> split_line (l ++ NL :: r) = Some (l ++ [NL], r).
Proof.
  induction l as [|b l IH]; intro H; simpl.
  - reflexivity.
  - rewrite byte_eqb_false by (intros ->; apply H; left; reflexivity).
    rewrite IH by (intro; apply H; right; assumption). reflexivity.
Qed.

Lemma split_line_none (s : list byte) : ~ In NL s -> split_line s = None.
Proof.
  induction s as [|b s IH]; intro H; simpl; [reflexivity|].
  rewrite byte_eqb_false by (intros ->; apply H; left; reflexivity).
  rewrite IH by (intro; apply H; right; assumption). reflexivity.
Qed.

Lemma ReadBytes_line (l r : list byte) :
  ~ In NL l -> ReadBytes (l ++ NL :: r) = (l ++ [NL], r, None).
Proof. intro H. unfold ReadBytes. rewrite split_line_app by exact H. reflexivity. Qed.

Lemma ReadBytes_last (s : list byte) : ~ In NL s -> ReadBytes s = (s, [], Some EOF).
Proof. intro H. unfold ReadBytes. rewrite split_line_none by exact H. reflexivity. Qed.

Lemma ReadSlice_line (B : nat) (l r : list byte) :
  ~ In NL l -> S (length l) <= B -> ReadSlice B (l ++ NL :: r) = (l ++ [NL], r, None).
Proof.
  intros H HB. unfold ReadSlice. rewrite split_line_app by exact H.
  rewrite length_app, Nat.add_1_r. apply Nat.leb_le in HB. rewrite HB. reflexivity.
Qed.

Lemma chop_last_line (l : list byte) : chop_last (l ++ [NL]) = l.
Proof.
  unfold chop_last. rewrite length_app, Nat.add_sub.
  rewrite firstn_app, Nat.sub_diag, firstn_all. simpl. apply app_nil_r.
Qed.

Lemma lines_cons (l : list byte) (ls : list (list byte)) (r : list byte) :
  lines (l :: ls) ++ r = l ++ NL :: (lines ls ++ r).
Proof. unfold lines. simpl. rewrite <- !app_assoc. reflexivity. Qed.

Lemma length_lines (ls : list (list byte)) : length ls <= length (lines ls).
Proof.
  induction ls as [|l ls IH]; [simpl; lia|].
  unfold lines in *. simpl. rewrite !length_app. simpl. lia.
Qed.

Lemma first_is_line (c : byte) (l : list byte) :
  c <> NL -> first_is c l = false -> first_is c (l ++ [NL]) = false.
Proof.
  intros Hc H. destruct l as [|b t]; simpl in *; [|exact H].
  apply byte_eqb_false. congruence.
Qed.

(* ------------------------------------------------------------------------- *)
(** ** FASTQ Next() after the quality scores *)

Definition resync_continues (f : Fastq.reader) : bool :=
  (0 <? length (Fastq.identifierBytes f)) && negb (first_is AT (Fastq.identifierBytes f))
  && is_nil (Fastq.lastErr f).

Lemma resync_stop (k : nat) (f : Fastq.reader) :
  resync_continues f = false -> Fastq.resync_loop k f = f.
Proof.
  intro H. destruct k; [reflexivity|]. simpl. unfold resync_continues in H. rewrite H.
  reflexivity.
Qed.

(** After the stray lines [ls], the loop reads the first line of [tail]. *)
Lemma resync_lines (ls : list (list byte)) (tail : list byte) (k : nat) (f : Fastq.reader) :
  Forall (fun l => ~ In NL l /\ first_is AT l = false) ls ->
  0 < length (Fastq.identifierBytes f) -> first_is AT (Fastq.identifierBytes f) = false ->
  Fastq.lastErr f = None -> Fastq.br f = lines ls ++ tail ->
  Fastq.resync_loop (length ls + S k) f =
  Fastq.resync_loop k
    (let '(l, r, e) := ReadBytes tail in
     Fastq.mk r l (Fastq.lastSeqLen f) (Fastq.lastBytes f) e (Fastq.closed f)).
Proof.
  revert f. induction ls as [|l ls IH]; intros [br idb lsl lb le cl] Hls Hlen Hat He Hbr;
    simpl in Hlen, Hat, He, Hbr; subst le br.
  - simpl. apply Nat.ltb_lt in Hlen. rewrite Hlen, Hat. simpl.
    destruct (ReadBytes tail) as [[l r] e]. reflexivity.
  - inversion Hls as [|? ? [Hnl Hfirst] Hls']; subst.
    cbn [length Nat.add Fastq.resync_loop Fastq.identifierBytes Fastq.lastErr Fastq.br].
    apply Nat.ltb_lt in Hlen. rewrite Hlen, Hat. simpl.
    rewrite lines_cons, ReadBytes_line by exact Hnl.
    rewrite (IH (Fastq.mk (lines ls ++ tail) (l ++ [NL]) lsl lb None cl)); try reflexivity.
    + exact Hls'.
    + simpl. rewrite length_app. simpl. lia.
    + apply first_is_line; [discriminate | exact Hfirst].
Qed.

Definition discard_continues (f : Fastq.reader) : bool :=
  (0 <? Fastq.lastSeqLen f) && is_nil (Fastq.lastErr f).

Lemma discard_loop_step (k : nat) (f : Fastq.reader) :
  Fastq.discard_loop (S k) f =
  if discard_continues f then
    let '(skipped, r, e) := Discard (Fastq.lastSeqLen f) (Fastq.br f) in
    Fastq.discard_loop k
      (Fastq.mk r (Fastq.identifierBytes f) (Fastq.lastSeqLen f - skipped)
         (Fastq.lastBytes f) e (Fastq.closed f))
  else f.
Proof. reflexivity. Qed.

Lemma Discard_all (n : nat) (s : list byte) :
  0 < n -> n <= length s -> Discard n s = (n, skipn n s, None).
Proof.
  intros Hn Hs. destruct n as [|n]; [inversion Hn|].
  unfold Discard. apply Nat.leb_le in Hs. rewrite Hs. reflexivity.
Qed.

Lemma discard_stop (k : nat) (f : Fastq.reader) :
  discard_continues f = false -> Fastq.discard_loop k f = f.
Proof.
  intro H. destruct k; [reflexivity|]. simpl. unfold discard_continues in H. rewrite H.
  reflexivity.
Qed.

(** Next() on a reader whose [lastSeqLen] bytes [q] precede stray lines [ls]
    and then [tail]: the result is the first line of [tail]. *)
Lemma Fastq_Next_skip (f : Fastq.reader) (q : list byte) (ls : list (list byte))
    (tail : list byte) :
  Fastq.lastErr f = None -> 0 < Fastq.lastSeqLen f -> length q = Fastq.lastSeqLen f ->
  Fastq.br f = q ++ lines ls ++ tail ->
  Forall (fun l => ~ In NL l /\ first_is AT l = false) ls ->
  let g := let '(l, r, e) := ReadBytes tail in
           Fastq.mk r l 0 (Fastq.lastBytes f) e (Fastq.closed f) in
  resync_continues g = false ->
  Fastq.Next f = (g, match Fastq.identifierBytes g with
                     | [] => false
                     | b :: _ => Byte.eqb b AT
                     end).
Proof.
  intros He Hpos Hq Hbr Hls g Hg. subst g.
  destruct f as [br idb lsl lb le cl]; simpl in *. subst le br lsl.
  unfold Fastq.Next. simpl.
  apply Nat.ltb_lt in Hpos as Hpos'. rewrite Hpos'.
  unfold Fastq.skip_quality. cbn [Fastq.lastSeqLen].
  assert (Hd : Fastq.discard_loop (S (length q)) (Fastq.mk (q ++ lines ls ++ tail) idb (length q) lb None cl)
               = Fastq.mk (lines ls ++ tail) idb 0 lb None cl).
  { rewrite discard_loop_step. unfold discard_continues.
    cbn [Fastq.lastSeqLen Fastq.lastErr Fastq.br]. rewrite Hpos'. simpl andb.
    rewrite Discard_all by (exact Hpos || (rewrite length_app; lia)).
    rewrite skipn_app, skipn_all, Nat.sub_diag. cbn [skipn app Fastq.lastSeqLen].
    apply discard_stop. reflexivity. }
  rewrite Hd. cbn [Fastq.lastErr Fastq.br Fastq.lastSeqLen Fastq.lastBytes Fastq.closed is_nil negb].
  destruct ls as [|l ls].
  - change (lines []) with (@nil byte). rewrite app_nil_l.
    destruct (ReadBytes tail) as [[l r] e]. rewrite resync_stop by exact Hg.
    simpl. destruct l; reflexivity.
  - inversion Hls as [|? ? [Hnl Hfirst] Hls']; subst.
    rewrite lines_cons, ReadBytes_line by exact Hnl.
    pose proof (length_lines ls) as Hll.
    replace (S (length (lines ls ++ tail)))
      with (length ls + S (length (lines ls ++ tail) - length ls))
      by (rewrite length_app; lia).
    rewrite (resync_lines ls tail _ (Fastq.mk (lines ls ++ tail) (l ++ [NL]) 0 lb None cl));
      try reflexivity; try exact Hls'.
    + destruct (ReadBytes tail) as [[l' r] e].
      rewrite resync_stop by exact Hg. simpl. destruct l'; reflexivity.
    + simpl. rewrite length_app. simpl. lia.
    + apply first_is_line; [discriminate | exact Hfirst].
Qed.

(** C4: after Next() has discarded the [lastSeqLen] quality bytes [q], it
    reads whole lines until one starts with '@' or the stream ends.  With
    stray lines [ls] (blank, or not starting with '@') before [tail]: if
    [tail] starts with '@', its first line becomes the identifier line and
    Next() returns true; if [tail] is a last line without '\n' not starting
    with '@' (or is empty), Next() returns false with io.EOF, the normal end
    of the stream. *)
Theorem C4_resync_to_header (f : Fastq.reader) (q : list byte) (ls : list (list byte))
    (tail : list byte) :
  Fastq.lastErr f = None -> 0 < Fastq.lastSeqLen f -> length q = Fastq.lastSeqLen f ->
  Fastq.br f = q ++ lines ls ++ tail ->
  Forall (fun l => ~ In NL l /\ first_is AT l = false) ls ->
  (first_is AT tail = true ->
     let '(line, rest, e) := ReadBytes tail in
     Fastq.Next f = (Fastq.mk rest line 0 (Fastq.lastBytes f) e (Fastq.closed f), true))
  /\ (~ In NL tail -> first_is AT tail = false ->
      Fastq.Next f = (Fastq.mk [] tail 0 (Fastq.lastBytes f) (Some EOF) (Fastq.closed f), false)).
Proof.
  intros He Hpos Hq Hbr Hls. split.
  - intro Hat.
    destruct tail as [|b t]; [discriminate|].
    simpl in Hat. apply byte_eqb_true in Hat. subst b.
    destruct (ReadBytes (AT :: t)) as [[line rest] e] eqn:E.
    destruct (ReadBytes_head _ _ _ _ _ E) as [t' ->].
    pose proof (Fastq_Next_skip f q ls (AT :: t) He Hpos Hq Hbr Hls) as H.
    rewrite E in H. cbn zeta in H. rewrite H; [reflexivity|].
    unfold resync_continues; simpl. reflexivity.
  - intros Hnl Hat.
    pose proof (Fastq_Next_skip f q ls tail He Hpos Hq Hbr Hls) as H.
    rewrite ReadBytes_last in H by exact Hnl. cbn zeta in H. rewrite H.
    + destruct tail as [|b t]; [reflexivity|]. simpl in Hat |- *. rewrite Hat. reflexivity.
    + unfold resync_continues; simpl. apply andb_false_r.
Qed.

Lemma C4_resync_to_header_witness :
  let f := Fastq.mk (bs "!!!!" ++ lns [""; "junk"; "@r2"]%string) [] 4 [] None false in
  (first_is AT (lns ["@r2"]%string) = true ->
     let '(line, rest, e) := ReadBytes (lns ["@r2"]%string) in
     Fastq.Next f = (Fastq.mk rest line 0 (Fastq.lastBytes f) e (Fastq.closed f), true))
  /\ (~ In NL (lns ["@r2"]%string) -> first_is AT (lns ["@r2"]%string) = false ->
      Fastq.Next f = (Fastq.mk [] (lns ["@r2"]%string) 0 (Fastq.lastBytes f) (Some EOF)
                        (Fastq.closed f), false)).
Proof.
  intro f.
  apply (C4_resync_to_header f (bs "!!!!") [[]; bs "junk"] (lns ["@r2"]%string)).
  - reflexivity.
  - repeat constructor.
  - reflexivity.
  - reflexivity.
  - repeat constructor; simpl; intuition discriminate.
Defined.

(* ------------------------------------------------------------------------- *)
(** ** C3 (amended): a quality block on one line *)

(** FASTQ Sequence() over sequence lines [ls] (each shorter than the read
    buffer, none starting with '+') up to the separator line "+c". *)
Lemma Fastq_seq_loop_lines (c rest : list byte) (ls : list (list byte)) :
  forall (fuel : nat) (f : Fastq.reader) (acc : list byte),
  Forall (fun l => ~ In NL l /\ S (length l) <= defaultBufSize /\ first_is PLUS l = false) ls ->
  ~ In NL c -> S (S (length c)) <= defaultBufSize -> length ls < fuel ->
  Fastq.br f = lines ls ++ PLUS :: c ++ NL :: rest ->
  Fastq.seq_loop fuel f acc =
  (Fastq.mk rest (Fastq.identifierBytes f) (length (acc ++ List.concat ls))
     (PLUS :: c ++ [NL]) None (Fastq.closed f), acc ++ List.concat ls).
Proof.
  induction ls as [|l ls IH]; intros fuel f acc Hls Hc HcB Hfuel Hbr;
    (destruct fuel as [|fuel]; [inversion Hfuel|]); cbn [Fastq.seq_loop].
  - change (lines []) with (@nil byte) in Hbr. rewrite app_nil_l in Hbr.
    rewrite Hbr. change (PLUS :: c ++ NL :: rest) with ((PLUS :: c) ++ NL :: rest).
    rewrite ReadSlice_line
      by (simpl; first [exact HcB | intros [H|H]; [discriminate | contradiction]]).
    cbn. rewrite !app_nil_r. reflexivity.
  - inversion Hls as [|? ? [Hnl [HlB Hfirst]] Hls']; subst.
    rewrite Hbr, lines_cons, ReadSlice_line by assumption.
    cbn [err_is is_nil negb].
    rewrite (IH fuel _ (acc ++ chop_last (l ++ [NL]))); try assumption.
    + rewrite chop_last_line. cbn [List.concat]. rewrite !app_assoc.
      destruct l as [|b t]; [reflexivity|].
      simpl in Hfirst |- *. rewrite Hfirst. reflexivity.
    + simpl in Hfuel. lia.
    + reflexivity.
Qed.

Lemma Fastq_seq_loop_lastSeqLen (fuel : nat) (f : Fastq.reader) (acc : list byte) :
  0 < fuel \/ Fastq.lastErr f <> None \/ first_is PLUS (Fastq.lastBytes f) = false ->
  let '(f', s) := Fastq.seq_loop fuel f acc in
  Fastq.lastErr f' = None -> first_is PLUS (Fastq.lastBytes f') = true ->
  Fastq.lastSeqLen f' = length s.
Proof.
  revert f acc. induction fuel as [|fuel IH]; intros f acc H.
  - simpl. intros He Hp. destruct H as [H|[H|H]]; [inversion H | contradiction | congruence].
  - simpl. destruct (ReadSlice defaultBufSize (Fastq.br f)) as [[lb r] e0] eqn:E.
    destruct (if err_is e0 ErrBufferFull then None else e0) as [e|] eqn:Ee.
    + simpl. discriminate.
    + simpl. destruct lb as [|b t]; [simpl; discriminate|].
      destruct (Byte.eqb b PLUS) eqn:Eb; [reflexivity|].
      apply IH. right. right. simpl. exact Eb.
Qed.

Lemma Fastq_Next_discard (f : Fastq.reader) (q rest : list byte) :
  Fastq.lastErr f = None -> 0 < Fastq.lastSeqLen f -> length q = Fastq.lastSeqLen f ->
  Fastq.br f = q ++ rest ->
  Fastq.Next f = fq_after_discard rest f.
Proof.
  intros He Hpos Hq Hbr.
  destruct f as [br idb lsl lb le cl]; simpl in *. subst le br lsl.
  unfold Fastq.Next. simpl.
  apply Nat.ltb_lt in Hpos as Hpos'. rewrite Hpos'.
  unfold Fastq.skip_quality. cbn [Fastq.lastSeqLen].
  assert (Hd : Fastq.discard_loop (S (length q)) (Fastq.mk (q ++ rest) idb (length q) lb None cl)
               = Fastq.mk rest idb 0 lb None cl).
  { rewrite discard_loop_step. unfold discard_continues.
    cbn [Fastq.lastSeqLen Fastq.lastErr Fastq.br]. rewrite Hpos'. simpl andb.
    rewrite Discard_all by (exact Hpos || (rewrite length_app; lia)).
    rewrite skipn_app, skipn_all, Nat.sub_diag. cbn [skipn app Fastq.lastSeqLen].
    apply discard_stop. reflexivity. }
  rewrite Hd. cbn [Fastq.lastErr Fastq.br Fastq.lastSeqLen Fastq.lastBytes Fastq.closed is_nil negb].
  unfold fq_after_discard. cbn [Fastq.lastBytes Fastq.closed].
  destruct (ReadBytes rest) as [[l r] e]. simpl negb. cbv iota. destruct (Fastq.identifierBytes _); reflexivity.
Qed.

Lemma Fastq_Next_short (f : Fastq.reader) :
  Fastq.lastErr f = None -> length (Fastq.br f) < Fastq.lastSeqLen f ->
  snd (Fastq.Next f) = false.
Proof.
  intros He Hlt.
  destruct f as [br idb lsl lb le cl]; simpl in *. subst le.
  unfold Fastq.Next. simpl.
  assert (Hpos : (0 <? lsl) = true) by (apply Nat.ltb_lt; lia). rewrite Hpos.
  unfold Fastq.skip_quality. cbn [Fastq.lastSeqLen].
  rewrite discard_loop_step. unfold discard_continues.
  cbn [Fastq.lastSeqLen Fastq.lastErr Fastq.br]. rewrite Hpos. simpl andb.
  unfold Discard. destruct lsl as [|n]; [lia|].
  replace (S n <=? length br) with false by (symmetry; apply Nat.leb_gt; lia).
  rewrite discard_stop by (unfold discard_continues; simpl; apply andb_false_r).
  reflexivity.
Qed.

Lemma Fastq_Next_header (f : Fastq.reader) (q : list byte) (ls : list (list byte))
    (h rest : list byte) :
  Fastq.lastErr f = None -> 0 < Fastq.lastSeqLen f -> length q = Fastq.lastSeqLen f ->
  Forall (fun l => ~ In NL l /\ first_is AT l = false) ls -> ~ In NL h ->
  Fastq.br f = q ++ lines ls ++ AT :: h ++ NL :: rest ->
  Fastq.Next f = (Fastq.mk rest (AT :: h ++ [NL]) 0 (Fastq.lastBytes f) None (Fastq.closed f), true).
Proof.
  intros He Hpos Hq Hls Hh Hbr.
  pose proof (Fastq_Next_skip f q ls (AT :: h ++ NL :: rest) He Hpos Hq Hbr Hls) as Hn.
  replace (ReadBytes (AT :: h ++ NL :: rest)) with (AT :: h ++ [NL], rest, @None goerr) in Hn
    by (symmetry; apply (ReadBytes_line (AT :: h)); simpl; intros [H|H]; [discriminate | contradiction]).
  cbn zeta in Hn. rewrite Hn; [simpl; rewrite byte_eqb_refl; reflexivity|].
  reflexivity.
Qed.

Lemma filter_nonNL_lt (q1 x : list byte) (L : nat) :
  length q1 < L ->
  length (filter (fun b => negb (Byte.eqb b NL)) (firstn L (q1 ++ NL :: x))) < L.
Proof.
  intro H. rewrite firstn_app. replace (firstn L q1) with q1 by (symmetry; apply firstn_all2; lia).
  replace (L - length q1) with (S (L - length q1 - 1)) by lia. simpl.
  rewrite filter_app. simpl. rewrite length_app.
  pose proof (filter_length_le (fun b => negb (Byte.eqb b NL)) q1).
  pose proof (filter_length_le (fun b => negb (Byte.eqb b NL)) (firstn (L - length q1 - 1) x)).
  rewrite length_firstn in H1. lia.
Qed.

Lemma length_concat_le_lines (qs : list (list byte)) :
  length (List.concat qs) <= length (lines qs).
Proof.
  induction qs as [|q qs IH]; [simpl; lia|].
  unfold lines in *. simpl. rewrite !length_app. simpl. lia.
Qed.

(** C3 (amended).  (1) When Sequence() stops at a '+' line with a nil
    error, it records in [lastSeqLen] the length L of the sequence it
    returns.  (2) When L > 0, Next() discards exactly the next L raw bytes of
    the stream, line terminators included, and then reads whole lines until
    one starts with '@' or the stream ends ([fq_after_discard]); (3) if fewer
    than L bytes remain, Next() returns false.  (4) A quality block that is
    one line of exactly L bytes is skipped with its '\n', and the following
    '@' line becomes the identifier line.  (5) For a block wrapped so that
    its first line is shorter than L, fewer than L of the discarded bytes
    are quality bytes (the others are '\n').  (6) After the discarded bytes,
    Next() reads from the current position to each next '\n'; the first
    line so read that starts with '@' becomes the identifier line, whether
    it is (the rest of) a quality line or a header. *)
Theorem C3_quality_skip :
  (forall f : Fastq.reader,
     let '(f', s) := Fastq.Sequence f in
     Fastq.lastErr f' = None -> first_is PLUS (Fastq.lastBytes f') = true ->
     Fastq.lastSeqLen f' = length s)
  /\ (forall (f : Fastq.reader) (q rest : list byte),
        Fastq.lastErr f = None -> 0 < Fastq.lastSeqLen f -> length q = Fastq.lastSeqLen f ->
        Fastq.br f = q ++ rest ->
        Fastq.Next f = fq_after_discard rest f)
  /\ (forall f : Fastq.reader,
        Fastq.lastErr f = None -> length (Fastq.br f) < Fastq.lastSeqLen f ->
        snd (Fastq.Next f) = false)
  /\ (forall (f : Fastq.reader) (q h rest : list byte),
        Fastq.lastErr f = None -> 0 < Fastq.lastSeqLen f -> length q = Fastq.lastSeqLen f ->
        ~ In NL q -> ~ In NL h ->
        Fastq.br f = q ++ NL :: AT :: h ++ NL :: rest ->
        Fastq.Next f
        = (Fastq.mk rest (AT :: h ++ [NL]) 0 (Fastq.lastBytes f) None (Fastq.closed f), true))
  /\ (forall (f : Fastq.reader) (q1 : list byte) (qs : list (list byte)) (tail : list byte),
        Fastq.lastErr f = None -> Fastq.lastSeqLen f = length (List.concat (q1 :: qs)) ->
        Forall (fun l => ~ In NL l) (q1 :: qs) -> length q1 < Fastq.lastSeqLen f ->
        Fastq.br f = lines (q1 :: qs) ++ tail ->
        exists q rest, Fastq.br f = q ++ rest /\ length q = Fastq.lastSeqLen f
        /\ length (filter (fun b => negb (Byte.eqb b NL)) q) < Fastq.lastSeqLen f
        /\ Fastq.Next f = fq_after_discard rest f)
  /\ (forall (f : Fastq.reader) (q : list byte) (ls : list (list byte)) (h rest : list byte),
        Fastq.lastErr f = None -> 0 < Fastq.lastSeqLen f -> length q = Fastq.lastSeqLen f ->
        Forall (fun l => ~ In NL l /\ first_is AT l = false) ls -> ~ In NL h ->
        Fastq.br f = q ++ lines ls ++ AT :: h ++ NL :: rest ->
        Fastq.Next f
        = (Fastq.mk rest (AT :: h ++ [NL]) 0 (Fastq.lastBytes f) None (Fastq.closed f), true)).
Proof.
  split; [|split; [|split; [|split; [|split]]]].
  - intro f. unfold Fastq.Sequence. apply Fastq_seq_loop_lastSeqLen. left. lia.
  - exact Fastq_Next_discard.
  - exact Fastq_Next_short.
  - intros f q h rest He Hpos Hq _ Hh Hbr.
    apply (Fastq_Next_header f q [[]] h rest He Hpos Hq); [repeat constructor; intros []|exact Hh|].
    rewrite Hbr. reflexivity.
  - intros f q1 qs tail He HL Hnl Hlt Hbr.
    exists (firstn (Fastq.lastSeqLen f) (Fastq.br f)), (skipn (Fastq.lastSeqLen f) (Fastq.br f)).
    assert (Hge : Fastq.lastSeqLen f <= length (Fastq.br f)).
    { rewrite Hbr, HL, length_app.
      pose proof (length_concat_le_lines (q1 :: qs)). lia. }
    split; [symmetry; apply firstn_skipn|].
    split; [rewrite length_firstn; lia|].
    split.
    + rewrite Hbr, lines_cons. apply filter_nonNL_lt. exact Hlt.
    + apply (Fastq_Next_discard f (firstn (Fastq.lastSeqLen f) (Fastq.br f))); try assumption.
      * lia.
      * rewrite length_firstn. lia.
      * symmetry; apply firstn_skipn.
  - exact Fastq_Next_header.
Qed.

Lemma C3_quality_skip_witness :
  let fw := Fastq.mk (lns ["!!"; "!!"; "@!"; "@r2"]%string) (lns ["@r1"]%string) 6
              (lns ["+"]%string) None false in
  let fs := Fastq.mk (lns ["AC"; "GT"; "+"; "!!!!"]%string) (lns ["@r1"]%string) 0 [] None false in
  (let '(f', s) := Fastq.Sequence fs in
   Fastq.lastErr f' = None -> first_is PLUS (Fastq.lastBytes f') = true ->
   Fastq.lastSeqLen f' = length s)
  /\ Fastq.Next (Fastq.mk (bs "!!!!xyz") [] 4 [] None false)
     = fq_after_discard (bs "xyz") (Fastq.mk (bs "!!!!xyz") [] 4 [] None false)
  /\ snd (Fastq.Next (Fastq.mk (bs "!!") [] 4 [] None false)) = false
  /\ Fastq.Next (Fastq.mk (lns ["!!!!"; "@r2"]%string) [] 4 [] None false)
     = (Fastq.mk [] (AT :: bs "r2" ++ [NL]) 0 [] None false, true)
  /\ (exists q rest, Fastq.br fw = q ++ rest /\ length q = Fastq.lastSeqLen fw
      /\ length (filter (fun b => negb (Byte.eqb b NL)) q) < Fastq.lastSeqLen fw
      /\ Fastq.Next fw = fq_after_discard rest fw)
  /\ Fastq.Next (Fastq.mk (bs "!!!!" ++ lns [""; "junk"; "@r2"]%string) [] 4 [] None false)
     = (Fastq.mk [] (AT :: bs "r2" ++ [NL]) 0 [] None false, true).
Proof.
  intros fw fs. destruct C3_quality_skip as (H1 & H2 & H3 & H4 & H5 & H6).
  split; [exact (H1 fs)|]. split; [|split; [|split; [|split]]].
  - apply (H2 _ (bs "!!!!") (bs "xyz")); reflexivity || (simpl; lia).
  - apply H3; [reflexivity | simpl; lia].
  - match goal with |- Fastq.Next ?g = _ => apply (H4 g (bs "!!!!") (bs "r2") []) end; try reflexivity; try (simpl; lia);
      cbv; intuition discriminate.
  - apply (H5 fw (bs "!!") [bs "!!"; bs "@!"] (lns ["@r2"]%string)); try reflexivity.
    + repeat constructor; cbv; intuition discriminate.
    + simpl; lia.
  - match goal with |- Fastq.Next ?g = _ =>
      apply (H6 g (bs "!!!!") [[]; bs "junk"] (bs "r2") []) end; try reflexivity; try (simpl; lia).
    + repeat constructor; cbv; intuition discriminate.
    + cbv; intuition discriminate.
Defined.

(* ------------------------------------------------------------------------- *)
(** ** C8: Progress() *)

Section ProgressFacts.
Import FileProgress.










End ProgressFacts.

(* ------------------------------------------------------------------------- *)
(** ** Packed k-mers *)

Section KmerFacts.

Local Open Scope Z_scope.

Lemma base_code_range (c : byte) : 0 <= base_code c < 4.
Proof. destruct c; simpl; lia. Qed.

Lemma mask_eq (K : Z) : 0 <= K <= 32 ->
  Kmers.wrap64 (Kmers.wrap64 (Z.shiftl 1 (K * 2)) - 1) = 4 ^ K - 1.
Proof.
  intro HK. unfold Kmers.wrap64.
  assert (E4 : 4 ^ K = 2 ^ (K * 2)) by (rewrite Z.mul_comm, Z.pow_mul_r by lia; reflexivity).
  rewrite E4, Z.shiftl_1_l.
  destruct (Z.eq_dec K 32) as [->|HK'].
  - reflexivity.
  - assert (2 ^ (K * 2) < 2 ^ 64) by (apply Z.pow_lt_mono_r; lia).
    assert (0 < 2 ^ (K * 2)) by (apply Z.pow_pos_nonneg; lia).
    rewrite (Z.mod_small (2 ^ (K * 2))) by lia.
    apply Z.mod_small. lia.
Qed.

Lemma NewKmerBase_ok (k : N) : (k <= 32)%N ->
  Kmers.NewKmerBase k = (Some (Kmers.mkBase (Z.of_N k) (4 ^ Z.of_N k - 1)), None).
Proof.
  intro Hk. unfold Kmers.NewKmerBase. unfold Kmers.MaxKmerSize.
  replace (32 <? Z.of_N k) with false by (symmetry; apply Z.ltb_ge; lia).
  rewrite mask_eq by lia. reflexivity.
Qed.

Lemma land_mask (K x : Z) : 0 <= K -> Z.land (4 ^ K - 1) x = x mod 4 ^ K.
Proof.
  intro HK. rewrite Z.land_comm.
  replace (4 ^ K - 1) with (Z.ones (2 * K)).
  - rewrite Z.land_ones by lia. rewrite Z.pow_mul_r by lia. reflexivity.
  - rewrite Z.ones_equiv, Z.pow_mul_r by lia. change (2 ^ 2) with 4. lia.
Qed.

Lemma lor_low (y c : Z) : 0 <= c < 4 -> Z.lor (4 * y) c = 4 * y + c.
Proof.
  intro Hc. rewrite <- Z.lxor_lor, <- Z.add_nocarry_lxor; [reflexivity| |].
  all: replace c with (Z.land c (Z.ones 2)) by (rewrite Z.land_ones by lia; apply Z.mod_small; simpl; lia).
  all: rewrite (Z.land_comm c), Z.land_assoc, Z.land_ones by lia; change (2 ^ 2) with 4;
       rewrite (Z.mul_comm 4 y), Z.mod_mul by lia; reflexivity.
Qed.

Lemma AppendBase_eq (K km : Z) (nuc : byte) : 1 <= K <= 32 -> 0 <= km ->
  Kmers.AppendBase (Kmers.mkBase K (4 ^ K - 1)) km nuc = (4 * km + base_code nuc) mod 4 ^ K.
Proof.
  intros HK Hkm.
  assert (HM : 4 ^ K = 4 * 4 ^ (K - 1)) by (rewrite <- Z.pow_succ_r by lia; f_equal; lia).
  assert (HM' : 0 < 4 ^ (K - 1)) by (apply Z.pow_pos_nonneg; lia).
  assert (Hx : Z.land (4 ^ K - 1) (Kmers.wrap64 (Z.shiftl km 2)) = 4 * (km mod 4 ^ (K - 1))).
  { rewrite land_mask by lia. unfold Kmers.wrap64.
    rewrite Z.mod_mod_divide.
    - rewrite Z.shiftl_mul_pow2 by lia. change (2 ^ 2) with 4.
      rewrite HM, (Z.mul_comm km 4). apply Z.mul_mod_distr_l; lia.
    - exists (4 ^ (32 - K)). rewrite <- Z.pow_add_r by lia.
      change (2 ^ 64) with (4 ^ 32). f_equal. lia. }
  assert (Hr : (4 * km + base_code nuc) mod 4 ^ K = 4 * (km mod 4 ^ (K - 1)) + base_code nuc).
  { pose proof (base_code_range nuc).
    pose proof (Z.mod_pos_bound km (4 ^ (K - 1)) HM').
    rewrite <- Z.add_mod_idemp_l by lia.
    rewrite HM, Z.mul_mod_distr_l by lia. apply Z.mod_small. lia. }
  rewrite Hr. unfold Kmers.AppendBase. cbn [Kmers.mask]. rewrite Hx.
  destruct nuc; cbn [base_code]; rewrite ?lor_low by lia; lia.
Qed.


Lemma fold_step_nonneg (l : list byte) (a : Z) : 0 <= a -> 0 <= fold_left enc_step l a.
Proof.
  revert a. induction l as [|c l IH]; intros a Ha; simpl; [exact Ha|].
  apply IH. unfold enc_step. pose proof (base_code_range c). lia.
Qed.

Lemma fold_AppendBase (K : Z) (l : list byte) (a : Z) : 1 <= K <= 32 -> 0 <= a ->
  fold_left (Kmers.AppendBase (Kmers.mkBase K (4 ^ K - 1))) l (a mod 4 ^ K)
  = fold_left enc_step l a mod 4 ^ K.
Proof.
  intros HK. revert a. induction l as [|c l IH]; intros a Ha; simpl; [reflexivity|].
  assert (HM : 0 < 4 ^ K) by (apply Z.pow_pos_nonneg; lia).
  pose proof (base_code_range c).
  rewrite AppendBase_eq by (try apply Z.mod_pos_bound; lia).
  replace ((4 * (a mod 4 ^ K) + base_code c) mod 4 ^ K) with ((enc_step a c) mod 4 ^ K).
  - apply IH. unfold enc_step. lia.
  - unfold enc_step. symmetry.
    rewrite <- Z.add_mod_idemp_l, Z.mul_mod_idemp_r, Z.add_mod_idemp_l by lia.
    reflexivity.
Qed.

Lemma fold_step_shift (l : list byte) (a : Z) :
  fold_left enc_step l a = a * 4 ^ Z.of_nat (length l) + fold_left enc_step l 0.
Proof.
  revert a. induction l as [|c l IH]; intro a; cbn [fold_left length]; [simpl; lia|].
  rewrite (IH (enc_step a c)), (IH (enc_step 0 c)). unfold enc_step.
  rewrite Nat2Z.inj_succ, Z.pow_succ_r by lia. lia.
Qed.

Lemma enc_app (xs ys : list byte) :
  enc (xs ++ ys) = enc xs * 4 ^ Z.of_nat (length ys) + enc ys.
Proof. unfold enc. rewrite fold_left_app. apply fold_step_shift. Qed.

Lemma enc_bound (l : list byte) : 0 <= enc l < 4 ^ Z.of_nat (length l).
Proof.
  induction l as [|c l IH] using rev_ind; [unfold enc; simpl; lia|].
  rewrite enc_app, length_app, Nat2Z.inj_add, Z.pow_add_r by lia.
  pose proof (base_code_range c).
  replace (enc [c]) with (base_code c) by reflexivity. change (4 ^ Z.of_nat (length [c])) with 4.
  lia.
Qed.

Lemma enc_zeros (n : nat) (l : list byte) : enc (repeat x41 n ++ l) = enc l.
Proof.
  rewrite enc_app. replace (enc (repeat x41 n)) with 0; [lia|].
  induction n as [|n IH]; [reflexivity|]. exact IH.
Qed.

Lemma enc_lastn (n : nat) (l : list byte) : (n <= length l)%nat ->
  enc l mod 4 ^ Z.of_nat n = enc (lastn n l).
Proof.
  intro Hn. unfold lastn.
  rewrite <- (firstn_skipn (length l - n) l) at 1. rewrite enc_app.
  assert (Hlen : length (skipn (length l - n) l) = n) by (rewrite length_skipn; lia).
  rewrite Hlen. pose proof (enc_bound (skipn (length l - n) l)) as Hb. rewrite Hlen in Hb.
  rewrite Z.add_comm, Z.mod_add by lia. apply Z.mod_small. exact Hb.
Qed.

Lemma digit_eq (v : Z) (i : nat) :
  Z.land (Z.shiftr v (Z.of_nat i * 2)) 3 = (v / 4 ^ Z.of_nat i) mod 4.
Proof.
  rewrite Z.shiftr_div_pow2 by lia.
  change 3 with (Z.ones 2). rewrite Z.land_ones by lia.
  rewrite Z.mul_comm, Z.pow_mul_r by lia. reflexivity.
Qed.

Lemma string_loop_high (n : nat) (c r : Z) : 0 <= r ->
  Kmers.string_loop n (c * 4 ^ Z.of_nat n + r) = Kmers.string_loop n r.
Proof.
  intro Hr. revert c. induction n as [|n IH]; intro c; [reflexivity|].
  cbn [Kmers.string_loop]. rewrite !digit_eq.
  assert (HP : 0 < 4 ^ Z.of_nat n) by (apply Z.pow_pos_nonneg; lia).
  replace (c * 4 ^ Z.of_nat (S n) + r) with ((4 * c) * 4 ^ Z.of_nat n + r)
    by (rewrite Nat2Z.inj_succ, Z.pow_succ_r by lia; ring).
  rewrite IH. f_equal. f_equal.
  rewrite Z.div_add_l by lia.
  rewrite Z.add_comm, (Z.mul_comm 4 c), Z.mod_add by lia. reflexivity.
Qed.

Lemma base_letter_code (c : byte) : Kmers.base_letter (base_code c) = [base_char c].
Proof. destruct c; reflexivity. Qed.

Lemma string_loop_enc (l : list byte) : Kmers.string_loop (length l) (enc l) = map base_char l.
Proof.
  induction l as [|c l IH]; [reflexivity|].
  change (c :: l) with ([c] ++ l). rewrite enc_app.
  replace (enc [c]) with (base_code c) by reflexivity.
  cbn [length app Kmers.string_loop map]. rewrite digit_eq.
  pose proof (enc_bound l) as Hb.
  rewrite Z.div_add_l by lia. rewrite (Z.div_small (enc l)) by lia.
  rewrite Z.add_0_r, Z.mod_small by (pose proof (base_code_range c); lia).
  rewrite base_letter_code, string_loop_high by lia. rewrite IH. reflexivity.
Qed.

Lemma InvalidKmer_eq : Kmers.InvalidKmer = 4 ^ 32 - 1.
Proof. reflexivity. Qed.

Lemma is_T_code (c : byte) : is_T c = (base_code c =? 3).
Proof. destruct c; reflexivity. Qed.

Lemma enc_all_T (l : list byte) :
  enc l = 4 ^ Z.of_nat (length l) - 1 <-> forallb is_T l = true.
Proof.
  induction l as [|c l IH]; [unfold enc; simpl; split; reflexivity|].
  change (c :: l) with ([c] ++ l). rewrite enc_app.
  replace (enc [c]) with (base_code c) by reflexivity.
  cbn [length app forallb]. rewrite Nat2Z.inj_succ, Z.pow_succ_r by lia.
  rewrite andb_true_iff, <- IH, is_T_code, Z.eqb_eq.
  pose proof (enc_bound l). pose proof (base_code_range c).
  assert (0 < 4 ^ Z.of_nat (length l)) by lia.
  split.
  - intro He. assert (base_code c = 3) by nia. split; [assumption | nia].
  - intros [Hc Hl]. rewrite Hc, Hl. ring.
Qed.

Lemma pack_eq (k : N) (s : list byte) : (1 <= k <= 32)%N ->
  Kmers.pack (Kmers.mkBase (Z.of_N k) (4 ^ Z.of_N k - 1)) s
  = enc (lastn (N.to_nat k) (repeat x41 (N.to_nat k) ++ s)).
Proof.
  intro Hk. unfold Kmers.pack.
  replace 0 with (0 mod 4 ^ Z.of_N k) at 1 by reflexivity.
  rewrite fold_AppendBase by lia. change (fold_left enc_step s 0) with (enc s).
  rewrite <- (enc_zeros (N.to_nat k) s), <- enc_lastn by (rewrite length_app, repeat_length; lia).
  rewrite N_nat_Z. reflexivity.
Qed.

Lemma AppendBase_k0 (km : Z) (nuc : byte) : Kmers.AppendBase (Kmers.mkBase 0 0) km nuc = base_code nuc.
Proof. unfold Kmers.AppendBase. cbn [Kmers.mask]. rewrite Z.land_0_l. destruct nuc; reflexivity. Qed.

Lemma length_lastn {A} (n : nat) (l : list A) : (n <= length l)%nat -> length (lastn n l) = n.
Proof. intro H. unfold lastn. rewrite length_skipn. lia. Qed.

(** X1: NewKmerBase(k) fails with the "too large" error and no base for
    k > 32; for k <= 32 it returns a base of Length() k whose mask is
    4^k - 1 (for k = 32 the uint64 shift gives 0 and 0 - 1 wraps to 2^64 - 1). *)
Theorem kmer_NewKmerBase_bounds (k : N) :
  ((32 < k)%N -> Kmers.NewKmerBase k = (None, Some (Kmers.KmerTooLarge k)))
  /\ ((k <= 32)%N -> exists b, Kmers.NewKmerBase k = (Some b, None)
        /\ Kmers.Length b = Z.of_N k /\ Kmers.mask b = 4 ^ Z.of_N k - 1).
Proof.
  split.
  - intro H. unfold Kmers.NewKmerBase, Kmers.MaxKmerSize.
    replace (32 <? Z.of_N k) with true by (symmetry; apply Z.ltb_lt; lia). reflexivity.
  - intro H. rewrite NewKmerBase_ok by exact H. eexists. repeat split.
Qed.

(** X2: Count() is 4^k for k <= 31, but for k = 32 the sum 1 + mask wraps
    around and Count() returns 0. *)
Theorem kmer_Count_wraps_at_32 (k : N) : (k <= 32)%N ->
  match Kmers.NewKmerBase k with
  | (Some b, None) => Kmers.Count b = if (k =? 32)%N then 0 else 4 ^ Z.of_N k
  | _ => False
  end.
Proof.
  intro Hk. rewrite NewKmerBase_ok by exact Hk. unfold Kmers.Count, Kmers.wrap64. cbn [Kmers.mask].
  replace (1 + (4 ^ Z.of_N k - 1)) with (4 ^ Z.of_N k) by ring.
  destruct (N.eqb_spec k 32) as [->|Hne]; [reflexivity|].
  apply Z.mod_small. split; [apply Z.pow_nonneg; lia|].
  change (2 ^ 64) with (4 ^ 32). apply Z.pow_lt_mono_r; lia.
Qed.

Lemma kmer_Count_wraps_at_32_witness :
  (32 <= 32)%N /\
  match Kmers.NewKmerBase 32 with
  | (Some b, None) => Kmers.Count b = if (32 =? 32)%N then 0 else 4 ^ Z.of_N 32
  | _ => False
  end.
Proof. split; [lia | apply (kmer_Count_wraps_at_32 32); lia]. Defined.

(** X3: for 1 <= k <= 32, AppendBase shifts the k-mer one base left, drops
    the leftmost base and appends the 2-bit code of the byte (A/a and any
    unknown byte 0, C/c 1, G/g 2, T/t 3): the result is
    (4 * km + code) mod 4^k, and it never exceeds the mask. *)
Theorem kmer_AppendBase_shift (k : N) (km : Z) (nuc : byte) : (1 <= k <= 32)%N -> 0 <= km < 2 ^ 64 ->
  match Kmers.NewKmerBase k with
  | (Some b, None) =>
      Kmers.AppendBase b km nuc = (4 * km + base_code nuc) mod 4 ^ Z.of_N k
      /\ 0 <= Kmers.AppendBase b km nuc <= Kmers.mask b
  | _ => False
  end.
Proof.
  intros Hk Hkm. rewrite NewKmerBase_ok by lia. cbn [Kmers.mask].
  rewrite AppendBase_eq by lia.
  assert (0 < 4 ^ Z.of_N k) by (apply Z.pow_pos_nonneg; lia).
  pose proof (Z.mod_pos_bound (4 * km + base_code nuc) (4 ^ Z.of_N k)). split; [reflexivity | lia].
Qed.

Lemma kmer_AppendBase_shift_witness :
  (1 <= 3 <= 32)%N /\ 0 <= 27 < 2 ^ 64 /\
  match Kmers.NewKmerBase 3 with
  | (Some b, None) =>
      Kmers.AppendBase b 27 x67 = (4 * 27 + base_code x67) mod 4 ^ Z.of_N 3
      /\ 0 <= Kmers.AppendBase b 27 x67 <= Kmers.mask b
  | _ => False
  end.
Proof. split; [lia | split; [lia | apply (kmer_AppendBase_shift 3 27 x67); lia]]. Defined.

(** X4: for k = 0, Count() is 1 but AppendBase ORs the code in after
    masking, so it returns the code of the byte (up to 3) whatever the
    previous value. *)
Theorem kmer_AppendBase_k0 :
  match Kmers.NewKmerBase 0 with
  | (Some b, None) => Kmers.Count b = 1 /\ forall km nuc, Kmers.AppendBase b km nuc = base_code nuc
  | _ => False
  end.
Proof. split; [reflexivity|]. apply AppendBase_k0. Qed.

(** X5: for k <= 31, String() of the k-mer built by AppendBase from a zero
    Kmer over the bytes of s is the last k bases of s in lower case, any byte
    other than A, C, G, T (either case) printed as 'a', and missing leading
    bases (s shorter than k) printed as 'a'. *)
Theorem kmer_String_round_trip (k : N) (s : list byte) : (k <= 31)%N ->
  match Kmers.NewKmerBase k with
  | (Some b, None) =>
      Kmers.String b (Kmers.pack b s) = map base_char (lastn (N.to_nat k) (repeat x41 (N.to_nat k) ++ s))
  | _ => False
  end.
Proof.
  intro Hk. rewrite NewKmerBase_ok by lia. unfold Kmers.String. cbn [Kmers.k].
  destruct (N.eq_dec k 0) as [->|Hk0].
  - assert (Hp : forall a, 0 <= a <= 3 -> 0 <= fold_left (Kmers.AppendBase (Kmers.mkBase 0 0)) s a <= 3).
    { induction s as [|c s IH]; intros a Ha; [exact Ha|]. simpl. apply IH.
      rewrite AppendBase_k0. pose proof (base_code_range c). lia. }
    unfold Kmers.pack. change (4 ^ Z.of_N 0 - 1) with 0. specialize (Hp 0 ltac:(lia)).
    assert (E32 : 4 ^ 32 = 18446744073709551616) by reflexivity.
    change (Z.of_N 0) with 0 in *. rewrite InvalidKmer_eq. replace (_ =? _) with false by (symmetry; apply Z.eqb_neq; lia).
    unfold lastn. rewrite Nat.sub_0_r, skipn_all. reflexivity.
  - rewrite pack_eq by lia.
    set (l := lastn _ _).
    assert (Hl : length l = N.to_nat k) by (apply length_lastn; rewrite length_app, repeat_length; lia).
    pose proof (enc_bound l) as Hb. rewrite Hl in Hb.
    assert (4 ^ Z.of_nat (N.to_nat k) <= 4 ^ 31) by (apply Z.pow_le_mono_r; lia).
    assert (E32 : 4 ^ 32 = 4 * 4 ^ 31) by reflexivity.
    rewrite InvalidKmer_eq. replace (_ =? _) with false by (symmetry; apply Z.eqb_neq; lia).
    replace (Z.to_nat (Z.of_N k)) with (N.to_nat k) by lia. rewrite <- Hl. apply string_loop_enc.
Qed.

Lemma kmer_String_round_trip_witness :
  (4 <= 31)%N /\
  match Kmers.NewKmerBase 4 with
  | (Some b, None) =>
      Kmers.String b (Kmers.pack b (bs "GATTACA")) =
      map base_char (lastn (N.to_nat 4) (repeat x41 (N.to_nat 4) ++ bs "GATTACA"))
  | _ => False
  end.
Proof. split; [lia | apply (kmer_String_round_trip 4 (bs "GATTACA")); lia]. Defined.

(** X6: for k = 32, the k-mer of 32 bases T equals InvalidKmer, so String()
    prints 32 '-' exactly when the last 32 bases of s are all T or t; for any
    other input it prints the last 32 bases as for smaller k. *)
Theorem kmer_String_32_collision (s : list byte) :
  match Kmers.NewKmerBase 32 with
  | (Some b, None) =>
      let l := lastn 32 (repeat x41 32 ++ s) in
      Kmers.String b (Kmers.pack b s) = if forallb is_T l then repeat x2d 32 else map base_char l
  | _ => False
  end.
Proof.
  rewrite NewKmerBase_ok by lia. unfold Kmers.String. cbn [Kmers.k].
  rewrite (pack_eq 32) by lia. cbv zeta.
  change (N.to_nat 32) with 32%nat. change (Z.to_nat (Z.of_N 32)) with 32%nat.
  set (l := lastn 32 (repeat x41 32 ++ s)).
  assert (Hl : length l = 32%nat) by (apply length_lastn; rewrite length_app, repeat_length; lia).
  rewrite InvalidKmer_eq. pose proof (enc_all_T l) as HT. rewrite Hl in HT.
  change (Z.of_nat 32) with 32 in HT.
  destruct (forallb is_T l).
  - rewrite (proj2 HT eq_refl), Z.eqb_refl. reflexivity.
  - replace (_ =? _) with false.
    + rewrite <- Hl. apply string_loop_enc.
    + symmetry. apply Z.eqb_neq. intro E. apply HT in E. discriminate.
Qed.

End KmerFacts.

(* ------------------------------------------------------------------------- *)
(** ** Files, readers and writers of fq2fa *)

(** [~ In x l] for a concrete list. *)
Ltac not_in := let H := fresh "H" in
  intro H; cbn in H; repeat (destruct H as [H|H]; [discriminate H|]); exact H.

(** The side conditions of a concrete list of records. *)
Ltac rec_ok :=
  repeat (apply Forall_cons || apply Forall_nil || split); cbn; unfold defaultBufSize;
  first [lia | reflexivity | not_in].

(** The loop of Ext skips bytes that are neither '.' nor '/'. *)
Lemma ext_loop_skip (m n : nat) (path : list byte) :
  m <= n ->
  (forall i, m <= i < n -> nth i path x00 <> GoPath.DOT /\ nth i path x00 <> GoPath.SLASH) ->
  GoPath.ext_loop n path = GoPath.ext_loop m path.
Proof.
  induction n as [|n IH]; intros Hmn Hi.
  - replace m with 0 by lia. reflexivity.
  - destruct (Nat.eq_dec m (S n)) as [->|Hne]; [reflexivity|].
    destruct (Hi n ltac:(lia)) as [Hd Hs]. cbn [GoPath.ext_loop].
    rewrite byte_eqb_false by exact Hs. rewrite byte_eqb_false by exact Hd.
    apply IH; [lia|]. intros i Hi'. apply Hi. lia.
Qed.

(** The last '.' of a list that has one. *)
Lemma last_dot (l : list byte) :
  In GoPath.DOT l -> exists l1 l2, l = l1 ++ GoPath.DOT :: l2 /\ ~ In GoPath.DOT l2.
Proof.
  induction l as [|c l IH] using rev_ind; [intros []|]. intro H.
  destruct (byte_eq_dec c GoPath.DOT) as [->|Hc].
  - exists l, []. split; [reflexivity | intros []].
  - apply in_app_or in H. destruct H as [H|[H|[]]]; [|congruence].
    destruct (IH H) as (l1 & l2 & -> & Hl2). exists l1, (l2 ++ [c]).
    split; [rewrite <- app_assoc; reflexivity|].
    intro Hin. apply in_app_or in Hin. destruct Hin as [Hin|[Hin|[]]]; [contradiction | congruence].
Qed.

Lemma nth_in_base (dir base : list byte) (i : nat) :
  length dir <= i < length dir + length base -> In (nth i (dir ++ base) x00) base.
Proof.
  intro H. rewrite app_nth2 by lia. apply nth_In. lia.
Qed.

Lemma Ext_nodot (dir base : list byte) :
  dir_part dir -> ~ In GoPath.SLASH base -> ~ In GoPath.DOT base -> GoPath.Ext (dir ++ base) = [].
Proof.
  intros Hd Hs Hdot. unfold GoPath.Ext.
  rewrite (ext_loop_skip (length dir)).
  - destruct Hd as [->|[d ->]]; [reflexivity|].
    rewrite length_app. cbn [length]. rewrite Nat.add_1_r. cbn [GoPath.ext_loop].
    rewrite <- app_assoc, app_nth2, Nat.sub_diag by lia. reflexivity.
  - rewrite length_app. lia.
  - intros i Hi. rewrite length_app in Hi. pose proof (nth_in_base dir base i Hi).
    split; intro E; rewrite E in *; contradiction.
Qed.

Lemma Ext_dot (dir b1 b2 : list byte) :
  ~ In GoPath.SLASH b2 -> ~ In GoPath.DOT b2 ->
  GoPath.Ext (dir ++ b1 ++ GoPath.DOT :: b2) = GoPath.DOT :: b2.
Proof.
  intros Hs Hdot. unfold GoPath.Ext.
  rewrite app_assoc. rewrite (ext_loop_skip (S (length (dir ++ b1)))).
  - cbn [GoPath.ext_loop]. rewrite app_nth2, Nat.sub_diag by lia. cbn [nth].
    rewrite skipn_app, skipn_all, Nat.sub_diag. reflexivity.
  - rewrite (length_app (dir ++ b1)). cbn [length]. lia.
  - intros i Hi. rewrite (length_app (dir ++ b1)) in Hi. cbn [length] in Hi.
    rewrite app_nth2 by lia. replace (i - length (dir ++ b1)) with (S (i - S (length (dir ++ b1)))) by lia.
    cbn [nth]. assert (In (nth (i - S (length (dir ++ b1))) b2 x00) b2) by (apply nth_In; lia).
    split; intro E; rewrite E in *; contradiction.
Qed.

Lemma bytes_eqb_refl (l : list byte) : GoPath.bytes_eqb l l = true.
Proof. induction l as [|c l IH]; [reflexivity|]. simpl. rewrite byte_eqb_refl. exact IH. Qed.

Lemma TrimSuffix_app (p s : list byte) : GoPath.TrimSuffix (p ++ s) s = p.
Proof.
  unfold GoPath.TrimSuffix, GoPath.HasSuffix. rewrite length_app.
  replace (length p + length s - length s) with (length p) by lia.
  rewrite skipn_app, skipn_all, Nat.sub_diag, bytes_eqb_refl.
  replace (length s <=? length p + length s) with true by (symmetry; apply Nat.leb_le; lia).
  simpl. rewrite firstn_app, firstn_all, Nat.sub_diag. apply app_nil_r.
Qed.

Lemma upto_dot_nodot (l : list byte) : ~ In GoPath.DOT l -> upto_dot l = l.
Proof.
  induction l as [|c l IH]; intro H; [reflexivity|]. simpl.
  rewrite byte_eqb_false by (intro E; apply H; left; exact E).
  rewrite IH by (intro; apply H; right; assumption). reflexivity.
Qed.

Lemma upto_dot_app_dot (l1 l2 : list byte) : upto_dot (l1 ++ GoPath.DOT :: l2) = upto_dot l1.
Proof.
  induction l1 as [|c l1 IH]; [reflexivity|].
  simpl. rewrite IH. reflexivity.
Qed.

Lemma strip_loop_base (dir : list byte) (fuel : nat) (base : list byte) :
  dir_part dir -> ~ In GoPath.SLASH base -> length base < fuel ->
  Fq2faMain.strip_loop fuel (dir ++ base) (GoPath.Ext (dir ++ base)) = dir ++ upto_dot base.
Proof.
  intros Hd. revert base. induction fuel as [|fuel IH]; intros base Hs Hf; [lia|].
  destruct (in_dec byte_eq_dec GoPath.DOT base) as [Hdot|Hdot].
  - destruct (last_dot base Hdot) as (b1 & b2 & -> & Hb2).
    assert (Hs2 : ~ In GoPath.SLASH b2) by (intro; apply Hs; apply in_or_app; right; right; assumption).
    rewrite Ext_dot by assumption. cbn [Fq2faMain.strip_loop].
    rewrite app_assoc, TrimSuffix_app, upto_dot_app_dot.
    apply IH.
    + intro; apply Hs; apply in_or_app; left; assumption.
    + rewrite length_app in Hf. cbn [length] in Hf. lia.
  - rewrite Ext_nodot by assumption. destruct fuel; cbn [Fq2faMain.strip_loop];
    rewrite upto_dot_nodot by assumption; reflexivity.
Qed.

Lemma stripExtenstions_app (dir base : list byte) :
  dir_part dir -> ~ In GoPath.SLASH base ->
  Fq2faMain.stripExtenstions (dir ++ base) = dir ++ upto_dot base.
Proof.
  intros Hd Hs. unfold Fq2faMain.stripExtenstions. apply strip_loop_base; [assumption..|].
  rewrite length_app. lia.
Qed.

(** X7: stripExtenstions removes from a path the extensions of its last
    element: for a directory part [dir] (empty or ending in '/') and a last
    element [base] without '/', the result is [dir] followed by the part of
    [base] before its first '.'. *)
Theorem stripExtenstions_last_element (dir base : list byte) :
  dir_part dir -> ~ In GoPath.SLASH base ->
  Fq2faMain.stripExtenstions (dir ++ base) = dir ++ upto_dot base.
Proof. apply stripExtenstions_app. Qed.

Lemma skipn_length_app {A} (x y : list A) (n : nat) : skipn (length x + n) (x ++ y) = skipn n y.
Proof. rewrite skipn_app, skipn_all2 by lia. simpl. f_equal. lia. Qed.

Lemma HasSuffix_fasta_gz (x : list byte) : GoPath.HasSuffix (x ++ bs ".fasta") (bs "gz") = false.
Proof.
  unfold GoPath.HasSuffix. rewrite length_app.
  replace (length x + length (bs ".fasta") - length (bs "gz")) with (length x + 4) by (simpl; lia).
  rewrite skipn_length_app. apply andb_false_r.
Qed.

Lemma stripExtenstions_last_element_witness :
  dir_part (bs "d/") /\ ~ In GoPath.SLASH (bs "r.fastq.gz") /\
  Fq2faMain.stripExtenstions (bs "d/" ++ bs "r.fastq.gz") = bs "d/" ++ upto_dot (bs "r.fastq.gz").
Proof.
  assert (Hd : dir_part (bs "d/")) by (right; exists (bs "d"); reflexivity).
  assert (Hs : ~ In GoPath.SLASH (bs "r.fastq.gz")) by not_in.
  split; [exact Hd|]. split; [exact Hs|].
  exact (stripExtenstions_last_element (bs "d/") (bs "r.fastq.gz") Hd Hs).
Defined.

(** X8: fq2fa's default output name for a single input [dir/stem.fasta]
    (or [dir/stem.fasta.gz] with -z), one output and no -o is the input path
    itself: stripExtenstions, an empty sequence-number verb for -n 1, the
    suffix ".fasta" and, with -z, ".gz" give back [fn]. *)
Theorem outputPattern_overwrites_input (dir stem : list byte) (z : bool) :
  dir_part dir -> ~ In GoPath.SLASH stem -> ~ In GoPath.DOT stem ->
  let fn := dir ++ stem ++ (if z then bs ".fasta.gz" else bs ".fasta") in
  Fq2faMain.outputPattern [] [fn] 1 z = Some fn.
Proof.
  intros Hd Hs Hdot fn. unfold Fq2faMain.outputPattern, fn.
  rewrite stripExtenstions_app; [| exact Hd |].
  2:{ intro H. apply in_app_or in H. destruct H as [H|H]; [contradiction|].
      destruct z; simpl in H; intuition discriminate. }
  assert (Hx : forall rest, upto_dot (stem ++ GoPath.DOT :: rest) = stem)
    by (intro; rewrite upto_dot_app_dot; apply upto_dot_nodot; exact Hdot).
  destruct z.
  - change (bs ".fasta.gz") with (GoPath.DOT :: bs "fasta.gz"). rewrite Hx.
    change (Fq2faMain.seq_verb 1) with (@nil byte). rewrite app_nil_l.
    rewrite HasSuffix_fasta_gz. simpl andb. cbv iota.
    rewrite <- !app_assoc. reflexivity.
  - change (bs ".fasta") with (GoPath.DOT :: bs "fasta"). rewrite Hx.
    change (Fq2faMain.seq_verb 1) with (@nil byte). simpl andb. cbv iota. rewrite app_nil_l, <- app_assoc. reflexivity.
Qed.

Lemma outputPattern_overwrites_input_witness :
  dir_part (bs "d/") /\ ~ In GoPath.SLASH (bs "reads") /\ ~ In GoPath.DOT (bs "reads") /\
  let fn := bs "d/" ++ bs "reads" ++ bs ".fasta.gz" in
  Fq2faMain.outputPattern [] [fn] 1 true = Some fn.
Proof.
  assert (Hd : dir_part (bs "d/")) by (right; exists (bs "d"); reflexivity).
  assert (Hs : ~ In GoPath.SLASH (bs "reads")) by not_in.
  assert (Ht : ~ In GoPath.DOT (bs "reads")) by not_in.
  split; [exact Hd|]. split; [exact Hs|]. split; [exact Ht|].
  exact (outputPattern_overwrites_input (bs "d/") (bs "reads") true Hd Hs Ht).
Defined.

Lemma ReadSlice_last (B : nat) (t : list byte) :
  ~ In NL t -> length t < B -> ReadSlice B t = (t, [], Some EOF).
Proof.
  intros H HB. unfold ReadSlice. rewrite split_line_none by exact H.
  replace (B <=? length t) with false by (symmetry; apply Nat.leb_gt; lia). reflexivity.
Qed.

Lemma Fasta_seq_loop_lines (ls : list (list byte)) (tail : list byte) :
  Forall fasta_line_ok ls ->
  forall k f acc, Fasta.br f = lines ls ++ tail ->
  Fasta.seq_loop (length ls + S k) f acc =
  Fasta.seq_loop (S k) (Fasta.mk tail None (Fasta.identifierBytes f) [] (Fasta.closed f))
    (acc ++ List.concat ls).
Proof.
  induction ls as [|l ls IH]; intros Hls k [br e idb lb cl] acc Hbr; simpl in Hbr; subst br.
  - rewrite app_nil_r. reflexivity.
  - inversion Hls as [|? ? [Hnl [HlB Hfirst]] Hls']; subst.
    cbn [length Nat.add Fasta.seq_loop Fasta.br].
    rewrite lines_cons, ReadSlice_line by assumption. cbn [err_is is_nil negb].
    destruct (l ++ [NL]) as [|b t] eqn:El; [destruct l; discriminate|].
    assert (Hb : Byte.eqb b GT = false).
    { pose proof (first_is_line GT l ltac:(discriminate) Hfirst) as H. rewrite El in H. exact H. }
    rewrite Hb, <- El, chop_last_line, (IH Hls' k). cbn [Fasta.identifierBytes Fasta.closed].
    rewrite <- app_assoc. reflexivity. reflexivity.
Qed.

(** At a final line [t] without '\n' (possibly empty), Sequence() stops with
    io.EOF and drops [t]. *)
Lemma Fasta_seq_loop_end (k : nat) (t : list byte) (e : option goerr) (idb lb : list byte)
    (cl : bool) (acc : list byte) :
  ~ In NL t -> length t < defaultBufSize ->
  Fasta.seq_loop (S k) (Fasta.mk t e idb lb cl) acc = (Fasta.mk [] (Some EOF) idb t cl, acc).
Proof.
  intros Hnl Ht. cbn [Fasta.seq_loop Fasta.br]. rewrite ReadSlice_last by assumption.
  reflexivity.
Qed.

Lemma Fasta_seq_loop_header (k : nat) (h rest : list byte) (e : option goerr) (idb lb : list byte)
    (cl : bool) (acc : list byte) :
  ~ In NL h -> S (S (length h)) <= defaultBufSize ->
  Fasta.seq_loop (S k) (Fasta.mk (GT :: h ++ NL :: rest) e idb lb cl) acc
  = (Fasta.mk rest None (GT :: h ++ [NL]) (GT :: h ++ [NL]) cl, acc).
Proof.
  intros Hnl Hh. cbn [Fasta.seq_loop Fasta.br].
  change (GT :: h ++ NL :: rest) with ((GT :: h) ++ NL :: rest).
  rewrite ReadSlice_line by (simpl; first [exact Hh | intros [H|H]; [discriminate | contradiction]]).
  reflexivity.
Qed.

Lemma Fasta_Next_header (f : Fasta.reader) (t : list byte) :
  Fasta.lastErr f = None -> Fasta.identifierBytes f = GT :: t -> Fasta.Next f = (f, true).
Proof.
  destruct f as [br e idb lb cl]; simpl. intros -> ->. unfold Fasta.Next. simpl.
  rewrite byte_eqb_refl. reflexivity.
Qed.

Lemma Fasta_Identifier_line (f : Fasta.reader) (c : byte) (id : list byte) :
  Fasta.identifierBytes f = c :: id ++ [NL] -> Fasta.Identifier f = Some id.
Proof.
  intro H. unfold Fasta.Identifier. rewrite H. cbn [length skipn]. rewrite length_app.
  cbn [length]. replace (2 <=? S (length id + 1)) with true by (symmetry; apply Nat.leb_le; lia).
  rewrite firstn_app. replace (S (length id + 1) - 2 - length id) with 0 by lia.
  replace (S (length id + 1) - 2) with (length id) by lia.
  rewrite firstn_all. simpl. rewrite app_nil_r. reflexivity.
Qed.

Lemma fasta_text_cons (r : list byte * list (list byte)) (rs : list (list byte * list (list byte))) :
  fasta_text (r :: rs) = GT :: fst r ++ NL :: lines (snd r) ++ fasta_text rs.
Proof. unfold fasta_text. cbn [map List.concat]. cbn [app]. rewrite <- app_assoc. reflexivity. Qed.

Lemma Fasta_read_loop (t : list byte) (rs : list (list byte * list (list byte))) :
  ~ In NL t -> length t < defaultBufSize -> Forall fasta_rec_ok rs ->
  forall r0 fuel f f1, fasta_rec_ok r0 -> S (length rs) < fuel ->
  Fasta.Next f = (f1, true) ->
  Fasta.identifierBytes f1 = GT :: fst r0 ++ [NL] ->
  Fasta.br f1 = lines (snd r0) ++ fasta_text rs ++ t ->
  Fq2fa.read_loop fuel (RFasta f)
  = Some (map (fun r => Fq2fa.mkSeq (fst r) (List.concat (snd r))) (r0 :: rs)).
Proof.
  intros Ht HtB. induction rs as [|r1 rs IH]; intros Hrs r0 fuel f f1 [Hid [HidB Hls]] Hfuel Hn Hidb Hbr;
    (destruct fuel as [|fuel]; [lia|]); cbn [Fq2fa.read_loop Reader_Next].
  all: rewrite Hn; cbn [Reader_Identifier]; rewrite (Fasta_Identifier_line f1 GT (fst r0)) by exact Hidb.
  all: cbn [Reader_Sequence]; unfold Fasta.Sequence.
  all: pose proof (length_lines (snd r0)).
  all: replace (S (length (Fasta.br f1))) with (length (snd r0) + S (length (Fasta.br f1) - length (snd r0)))
         by (rewrite Hbr, !length_app; lia).
  all: rewrite (Fasta_seq_loop_lines (snd r0) _ Hls _ f1 [] Hbr).
  - cbn [fasta_text map List.concat app]. rewrite Fasta_seq_loop_end by assumption.
    destruct fuel as [|fuel]; [lia|]. reflexivity.
  - inversion Hrs as [|? ? Hr1 Hrs']; subst.
    rewrite fasta_text_cons. cbn [app]. rewrite <- app_assoc. cbn [app]. rewrite <- app_assoc.
    pose proof Hr1 as [Hid1 [HidB1 _]].
    rewrite Fasta_seq_loop_header by assumption.
    set (f2 := Fasta.mk (lines (snd r1) ++ fasta_text rs ++ t) None (GT :: fst r1 ++ [NL])
                 (GT :: fst r1 ++ [NL]) (Fasta.closed f1)).
    rewrite (IH Hrs' r1 fuel f2 f2 Hr1); [reflexivity | simpl in Hfuel; lia | | reflexivity | reflexivity].
    apply Fasta_Next_header with (t := fst r1 ++ [NL]); reflexivity.
Qed.

Lemma fasta_convert (recs : list (list byte * list (list byte))) (t : list byte) (fuel : nat) :
  recs <> [] -> Forall fasta_rec_ok recs -> ~ In NL t -> length t < defaultBufSize ->
  length recs < fuel ->
  Fq2fa.convertFile fuel (fasta_text recs ++ t)
  = Some (map (fun r => Fq2fa.mkSeq (fst r) (List.concat (snd r))) recs).
Proof.
  intros Hne Hok Ht HtB Hfuel. destruct recs as [|r0 rs]; [contradiction|].
  inversion Hok as [|? ? Hr0 Hrs]; subst.
  pose proof Hr0 as [Hid [_ _]].
  unfold Fq2fa.convertFile. rewrite fasta_text_cons. cbn [app].
  set (rest := (fst r0 ++ NL :: lines (snd r0) ++ fasta_text rs) ++ t).
  unfold Open. cbn [Fasta.br Peek1]. rewrite (byte_eqb_false GT AT) by discriminate.
  apply (Fasta_read_loop t rs Ht HtB Hrs r0 fuel _
           (Fasta.mk (lines (snd r0) ++ fasta_text rs ++ t) None (GT :: fst r0 ++ [NL]) [] false)
           Hr0); [simpl in Hfuel; lia | | reflexivity | reflexivity].
  unfold Fasta.Next. cbn [Fasta.lastErr err_is goerr_eqb Fasta.br].
  replace (ReadBytes (GT :: rest)) with (GT :: fst r0 ++ [NL], lines (snd r0) ++ fasta_text rs ++ t, @None goerr).
  - simpl. rewrite byte_eqb_refl. reflexivity.
  - symmetry. unfold rest. rewrite <- app_assoc. cbn [app]. rewrite <- app_assoc.
    apply (ReadBytes_line (GT :: fst r0)). intros [H|H]; [discriminate | contradiction].
Qed.



(** X10: after one or more FASTA records whose header line and sequence
    lines fit the 4096-byte buffer with their '\n' and whose sequence lines
    do not start with '>' ([fasta_rec_ok]), a final line [t] without '\n'
    and shorter than the buffer is dropped by convertFile: the records read
    are the same as without it. *)
Theorem convertFile_fasta_drops_last_line (recs : list (list byte * list (list byte)))
    (t : list byte) (fuel : nat) :
  recs <> [] -> Forall fasta_rec_ok recs -> ~ In NL t -> length t < defaultBufSize ->
  length recs < fuel ->
  Fq2fa.convertFile fuel (fasta_text recs ++ t) = Fq2fa.convertFile fuel (fasta_text recs).
Proof.
  intros Hne Hok Ht HtB Hfuel. rewrite fasta_convert by assumption.
  rewrite <- (app_nil_r (fasta_text recs)), fasta_convert; try assumption.
  - reflexivity.
  - intros [].
  - simpl. unfold defaultBufSize. lia.
Qed.

Lemma convertFile_fasta_drops_last_line_witness :
  let recs := [(bs "s1", [bs "ACGT"])] in
  recs <> [] /\ Forall fasta_rec_ok recs /\ ~ In NL (bs "GG") /\ length (bs "GG") < defaultBufSize
  /\ length recs < 2 /\
  Fq2fa.convertFile 2 (fasta_text recs ++ bs "GG") = Fq2fa.convertFile 2 (fasta_text recs).
Proof.
  intro recs.
  assert (Hne : recs <> []) by discriminate.
  assert (Hok : Forall fasta_rec_ok recs) by (unfold fasta_rec_ok, fasta_line_ok; rec_ok).
  assert (Ht : ~ In NL (bs "GG")) by not_in.
  assert (HtB : length (bs "GG") < defaultBufSize) by (unfold defaultBufSize; simpl; lia).
  split; [exact Hne|]. split; [exact Hok|]. split; [exact Ht|]. split; [exact HtB|].
  split; [simpl; lia|].
  apply (convertFile_fasta_drops_last_line recs (bs "GG") 2 Hne Hok Ht HtB). simpl; lia.
Defined.

Lemma lines_app (xs ys : list (list byte)) : lines (xs ++ ys) = lines xs ++ lines ys.
Proof. unfold lines. rewrite map_app, concat_app. reflexivity. Qed.

Lemma write_record_text (s : Fq2fa.Seq) :
  writable s ->
  exists r, Fq2fa.write_record s = GT :: fst r ++ NL :: lines (snd r)
            /\ Fq2fa.mkSeq (fst r) (List.concat (snd r)) = s /\ fasta_rec_ok r.
Proof.
  intros (Hid & HidB & Hnl & Hgt).
  destruct (wrap_loop_shape (length (Fq2fa.Sequence s)) (Fq2fa.Sequence s))
    as (full & last & Hw & Hf & Hl & Hc); [lia|].
  exists (Fq2fa.Identifier s, full ++ [last]). cbn [fst snd].
  split; [|split].
  - unfold Fq2fa.write_record, Fq2fa.wrap. rewrite Hw, lines_app. cbn [app].
    unfold lines at 3. cbn [map List.concat]. rewrite app_nil_r. reflexivity.
  - rewrite concat_app. simpl. rewrite app_nil_r, Hc. destruct s; reflexivity.
  - split; [exact Hid|]. split; [exact HidB|].
    assert (Hsub : forall c x, In c (full ++ [last]) -> In x c -> In x (Fq2fa.Sequence s)).
    { intros c x Hin Hx. rewrite <- Hc. apply in_app_or in Hin. destruct Hin as [Hin|[<-|[]]].
      - apply in_or_app. left. apply in_concat. eauto.
      - apply in_or_app. right. exact Hx. }
    apply Forall_forall. intros c Hin. split; [|split].
    + intro H. apply Hnl. eapply Hsub; eauto.
    + assert (length c <= 80).
      { apply in_app_or in Hin. destruct Hin as [Hin|[<-|[]]]; [|exact Hl].
        rewrite Forall_forall in Hf. rewrite (Hf c Hin). lia. }
      unfold defaultBufSize. lia.
    + destruct c as [|b c']; [reflexivity|]. simpl.
      apply byte_eqb_false. intros ->. apply Hgt. eapply Hsub; [exact Hin | left; reflexivity].
Qed.

Lemma seqWriter_text (recs : list Fq2fa.Seq) :
  Forall writable recs ->
  exists trs, Fq2fa.seqWriter recs = fasta_text trs
    /\ map (fun r => Fq2fa.mkSeq (fst r) (List.concat (snd r))) trs = recs
    /\ Forall fasta_rec_ok trs.
Proof.
  induction recs as [|s recs IH]; intro Hok; [exists []; repeat constructor|].
  inversion Hok as [|? ? Hs Hrecs]; subst.
  destruct (write_record_text s Hs) as (r & Hw & Hr & Hrok).
  destruct (IH Hrecs) as (trs & Ht & Hm & Htok).
  exists (r :: trs). split; [|split].
  - unfold Fq2fa.seqWriter. cbn [map List.concat]. fold (Fq2fa.seqWriter recs).
    rewrite Hw, Ht, fasta_text_cons. cbn [app]. rewrite <- app_assoc. reflexivity.
  - cbn [map]. rewrite Hr, Hm. reflexivity.
  - constructor; assumption.
Qed.

(** X11: decoding what seqWriter writes gives back the records, for a
    non-empty list of records whose identifiers contain no '\n' and fit the
    4096-byte buffer, and whose sequences contain no '\n' and no '>'. *)
Theorem seqWriter_convertFile_round_trip (recs : list Fq2fa.Seq) (fuel : nat) :
  recs <> [] -> Forall writable recs -> length recs < fuel ->
  Fq2fa.convertFile fuel (Fq2fa.seqWriter recs) = Some recs.
Proof.
  intros Hne Hok Hfuel. destruct (seqWriter_text recs Hok) as (trs & Ht & Hm & Htok).
  rewrite Ht, <- (app_nil_r (fasta_text trs)), fasta_convert.
  - rewrite Hm. reflexivity.
  - intros ->. apply Hne. rewrite <- Hm. reflexivity.
  - exact Htok.
  - intros [].
  - simpl. unfold defaultBufSize. lia.
  - rewrite <- Hm, length_map in Hfuel. exact Hfuel.
Qed.

Lemma seqWriter_convertFile_round_trip_witness :
  let recs := [Fq2fa.mkSeq (bs "s1") (repeat x41 90); Fq2fa.mkSeq (bs "s2") (bs "")] in
  recs <> [] /\ Forall writable recs /\ length recs < 3 /\
  Fq2fa.convertFile 3 (Fq2fa.seqWriter recs) = Some recs.
Proof.
  intro recs.
  assert (Hne : recs <> []) by discriminate.
  assert (Hok : Forall writable recs) by (unfold writable; rec_ok).
  split; [exact Hne|]. split; [exact Hok|]. split; [simpl; lia|].
  apply (seqWriter_convertFile_round_trip recs 3 Hne Hok). simpl; lia.
Defined.

Lemma Fasta_sb_loop_lines (ls : list (list byte)) (tail : list byte) :
  Forall fasta_line_ok ls ->
  forall k f out, Fasta.br f = lines ls ++ tail ->
  Fasta.sb_loop (length ls + S k) f out =
  Fasta.sb_loop (S k) (Fasta.mk tail None (Fasta.identifierBytes f) [] (Fasta.closed f))
    (out ++ List.concat ls).
Proof.
  induction ls as [|l ls IH]; intros Hls k [br e idb lb cl] out Hbr; simpl in Hbr; subst br.
  - rewrite app_nil_r. reflexivity.
  - inversion Hls as [|? ? [Hnl [HlB Hfirst]] Hls']; subst.
    cbn [length Nat.add Fasta.sb_loop Fasta.br].
    rewrite lines_cons, ReadSlice_line by assumption. cbn [err_is is_nil negb].
    rewrite (first_is_line GT l ltac:(discriminate) Hfirst), andb_false_r.
    replace (if 1 <? length (l ++ [NL]) then out ++ chop_last (l ++ [NL]) else out)
      with (out ++ l).
    + rewrite (IH Hls' k); [|reflexivity]. cbn [Fasta.identifierBytes Fasta.closed].
      rewrite <- app_assoc. reflexivity.
    + rewrite chop_last_line. destruct l as [|b l'].
      * simpl. rewrite app_nil_r. reflexivity.
      * replace (1 <? length ((b :: l') ++ [NL])) with true
          by (symmetry; apply Nat.ltb_lt; rewrite length_app; simpl; lia).
        reflexivity.
Qed.

(** X12: on FASTA sequence lines that fit the 4096-byte buffer with their
    '\n' and do not start with '>', followed by a header line that fits the
    buffer with its '\n', Sequence()
    returns the concatenated lines and leaves the header as the next
    identifier; SequenceBytes() passes the same bytes, leaves the reader in
    the same state and returns a nil error. *)
Theorem Fasta_SequenceBytes_header (f : Fasta.reader) (ls : list (list byte)) (h rest : list byte) :
  Forall fasta_line_ok ls -> ~ In NL h -> S (S (length h)) <= defaultBufSize ->
  Fasta.br f = lines ls ++ GT :: h ++ NL :: rest ->
  Fasta.Sequence f = (Fasta.mk rest None (GT :: h ++ [NL]) (GT :: h ++ [NL]) (Fasta.closed f),
                      List.concat ls)
  /\ Fasta.SequenceBytes f = (fst (Fasta.Sequence f), snd (Fasta.Sequence f), None).
Proof.
  intros Hls Hh HhB Hbr.
  assert (Hfuel : S (length (Fasta.br f)) = length ls + S (length (Fasta.br f) - length ls))
    by (pose proof (length_lines ls); rewrite Hbr, length_app; lia).
  assert (Hs : Fasta.Sequence f =
    (Fasta.mk rest None (GT :: h ++ [NL]) (GT :: h ++ [NL]) (Fasta.closed f), List.concat ls)).
  { unfold Fasta.Sequence. rewrite Hfuel, (Fasta_seq_loop_lines ls _ Hls _ f [] Hbr).
    rewrite Fasta_seq_loop_header by assumption. reflexivity. }
  split; [exact Hs|]. rewrite Hs. cbn [fst snd].
  unfold Fasta.SequenceBytes. rewrite Hfuel, (Fasta_sb_loop_lines ls _ Hls _ f [] Hbr).
  cbn [Fasta.sb_loop Fasta.br].
  change (GT :: h ++ NL :: rest) with ((GT :: h) ++ NL :: rest).
  rewrite ReadSlice_line by (simpl; first [exact HhB | intros [Hx|Hx]; [discriminate | contradiction]]).
  replace (1 <? length ((GT :: h) ++ [NL])) with true
    by (symmetry; apply Nat.ltb_lt; rewrite length_app; simpl; lia).
  cbn [first_is app]. rewrite byte_eqb_refl. reflexivity.
Qed.

Lemma Fasta_SequenceBytes_header_witness :
  let f := Fasta.mk (lines [bs "AC"; bs "GT"] ++ GT :: bs "s2" ++ NL :: bs "A")
             None (bs ">s1" ++ [NL]) [] false in
  Forall fasta_line_ok [bs "AC"; bs "GT"] /\ ~ In NL (bs "s2") /\
  S (S (length (bs "s2"))) <= defaultBufSize /\
  Fasta.br f = lines [bs "AC"; bs "GT"] ++ GT :: bs "s2" ++ NL :: bs "A" /\
  Fasta.Sequence f = (Fasta.mk (bs "A") None (GT :: bs "s2" ++ [NL]) (GT :: bs "s2" ++ [NL])
                        (Fasta.closed f), List.concat [bs "AC"; bs "GT"])
  /\ Fasta.SequenceBytes f = (fst (Fasta.Sequence f), snd (Fasta.Sequence f), None).
Proof.
  intro f.
  assert (Hls : Forall fasta_line_ok [bs "AC"; bs "GT"]) by (unfold fasta_line_ok; rec_ok).
  assert (Hh : ~ In NL (bs "s2")) by not_in.
  assert (HhB : S (S (length (bs "s2"))) <= defaultBufSize) by (unfold defaultBufSize; simpl; lia).
  split; [exact Hls|]. split; [exact Hh|]. split; [exact HhB|]. split; [reflexivity|].
  exact (Fasta_SequenceBytes_header f _ _ _ Hls Hh HhB eq_refl).
Defined.

(** X13: on FASTA sequence lines that fit the 4096-byte buffer with their
    '\n' and do not start with '>', followed by a final line [t] without
    '\n', shorter than the buffer and not starting with '>', Sequence() drops [t], while SequenceBytes()
    passes [t] without its last byte; both end in the same io.EOF state, and
    SequenceBytes() returns a nil error. *)
Theorem Fasta_SequenceBytes_last_line (f : Fasta.reader) (ls : list (list byte)) (t : list byte) :
  Forall fasta_line_ok ls -> ~ In NL t -> length t < defaultBufSize -> first_is GT t = false ->
  Fasta.br f = lines ls ++ t ->
  Fasta.Sequence f = (Fasta.mk [] (Some EOF) (Fasta.identifierBytes f) t (Fasta.closed f),
                      List.concat ls)
  /\ Fasta.SequenceBytes f =
     (Fasta.mk [] (Some EOF) (Fasta.identifierBytes f) t (Fasta.closed f),
      List.concat ls ++ chop_last t, None).
Proof.
  intros Hls Ht HtB Hgt Hbr.
  assert (Hfuel : S (length (Fasta.br f)) = length ls + S (length (Fasta.br f) - length ls))
    by (pose proof (length_lines ls); rewrite Hbr, length_app; lia).
  split.
  - unfold Fasta.Sequence. rewrite Hfuel, (Fasta_seq_loop_lines ls _ Hls _ f [] Hbr).
    rewrite Fasta_seq_loop_end by assumption. reflexivity.
  - unfold Fasta.SequenceBytes. rewrite Hfuel, (Fasta_sb_loop_lines ls _ Hls _ f [] Hbr).
    cbn [Fasta.sb_loop Fasta.br]. rewrite ReadSlice_last by assumption.
    rewrite Hgt, andb_false_r. cbn [err_is goerr_eqb app].
    destruct (1 <? length t) eqn:E; [reflexivity|].
    apply Nat.ltb_ge in E. unfold chop_last. replace (length t - 1) with 0 by lia.
    rewrite app_nil_r. reflexivity.
Qed.

Lemma Fasta_SequenceBytes_last_line_witness :
  let f := Fasta.mk (lines [bs "AC"] ++ bs "GTA") None (bs ">s1" ++ [NL]) [] false in
  Forall fasta_line_ok [bs "AC"] /\ ~ In NL (bs "GTA") /\ length (bs "GTA") < defaultBufSize /\
  first_is GT (bs "GTA") = false /\ Fasta.br f = lines [bs "AC"] ++ bs "GTA" /\
  Fasta.Sequence f = (Fasta.mk [] (Some EOF) (Fasta.identifierBytes f) (bs "GTA") (Fasta.closed f),
                      List.concat [bs "AC"])
  /\ Fasta.SequenceBytes f =
     (Fasta.mk [] (Some EOF) (Fasta.identifierBytes f) (bs "GTA") (Fasta.closed f),
      List.concat [bs "AC"] ++ chop_last (bs "GTA"), None).
Proof.
  intro f.
  assert (Hls : Forall fasta_line_ok [bs "AC"]) by (unfold fasta_line_ok; rec_ok).
  assert (Ht : ~ In NL (bs "GTA")) by not_in.
  assert (HtB : length (bs "GTA") < defaultBufSize) by (unfold defaultBufSize; simpl; lia).
  split; [exact Hls|]. split; [exact Ht|]. split; [exact HtB|]. split; [reflexivity|].
  split; [reflexivity|].
  exact (Fasta_SequenceBytes_last_line f _ _ Hls Ht HtB eq_refl eq_refl).
Defined.

Lemma fastq_text_cons (r : fq_record) (recs : list fq_record) :
  fastq_text (r :: recs) =
  AT :: fq_id r ++ NL :: lines (fq_seq r) ++ PLUS :: fq_sep r ++ NL :: fq_qual r
     ++ NL :: fastq_text recs.
Proof.
  unfold fastq_text. cbn [map List.concat]. cbn [app]. f_equal.
  rewrite <- !app_assoc. f_equal. cbn [app]. f_equal.
  rewrite <- !app_assoc. f_equal. cbn [app]. f_equal.
  rewrite <- !app_assoc. f_equal. cbn [app]. f_equal.
  rewrite <- !app_assoc. reflexivity.
Qed.

Lemma fastq_text_cons_app (r : fq_record) (recs : list fq_record) (t : list byte) :
  fastq_text (r :: recs) ++ t =
  (AT :: fq_id r) ++ NL :: lines (fq_seq r) ++ PLUS :: fq_sep r ++ NL :: fq_qual r
     ++ NL :: fastq_text recs ++ t.
Proof.
  rewrite fastq_text_cons. cbn [app]. rewrite <- !app_assoc. cbn [app].
  rewrite <- !app_assoc. cbn [app]. rewrite <- !app_assoc. cbn [app].
  rewrite <- !app_assoc. reflexivity.
Qed.

Lemma Fastq_Identifier_line (f : Fastq.reader) (c : byte) (id : list byte) :
  Fastq.identifierBytes f = c :: id ++ [NL] -> Fastq.Identifier f = Some id.
Proof.
  intro H. unfold Fastq.Identifier. rewrite H. cbn [length skipn]. rewrite length_app.
  cbn [length]. replace (S (length id + 1) - 2) with (length id) by lia.
  replace (2 <=? S (length id + 1)) with true by (symmetry; apply Nat.leb_le; lia).
  rewrite firstn_app, Nat.sub_diag, firstn_all. rewrite app_nil_r. reflexivity.
Qed.

Lemma fq_resync_stop_header (x t : list byte) (f : Fastq.reader) :
  first_is AT x = true -> ~ In NL x ->
  resync_continues (fst (fq_next_state (x ++ NL :: t) f)) = false.
Proof.
  intros Hx Hnl. unfold fq_next_state. rewrite ReadBytes_line by exact Hnl.
  unfold resync_continues. cbn [fst Fastq.identifierBytes].
  destruct x as [|b x]; [discriminate|]. simpl in Hx |- *. rewrite Hx. reflexivity.
Qed.

Lemma fq_resync_stop_text (recs : list fq_record) (t : list byte) (f : Fastq.reader) :
  Forall fq_rec_ok recs ->
  (forall g, resync_continues (fst (fq_next_state t g)) = false) ->
  resync_continues (fst (fq_next_state (fastq_text recs ++ t) f)) = false.
Proof.
  intros Hok Ht. destruct recs as [|r recs]; [apply Ht|].
  inversion Hok as [|? ? (Hid & _) _]; subst.
  rewrite fastq_text_cons_app.
  apply fq_resync_stop_header; [apply byte_eqb_refl|].
  intros [H|H]; [discriminate | contradiction].
Qed.

Lemma Fastq_Next_after_quality (f : Fastq.reader) (q t : list byte) :
  Fastq.lastErr f = None -> 0 < Fastq.lastSeqLen f -> length q = Fastq.lastSeqLen f ->
  Fastq.br f = q ++ NL :: t ->
  resync_continues (fst (fq_next_state t f)) = false ->
  Fastq.Next f = fq_next_state t f.
Proof.
  intros He Hpos Hq Hbr Ht.
  assert (Hbr' : Fastq.br f = q ++ lines [[]] ++ t) by (rewrite Hbr; reflexivity).
  assert (Hls : Forall (fun l => ~ In NL l /\ first_is AT l = false) [@nil byte])
    by (repeat constructor; intros []).
  exact (Fastq_Next_skip f q [[]] t He Hpos Hq Hbr' Hls Ht).
Qed.

(** Reading records, then whatever the text [t] after them gives. *)
Lemma Fastq_read_loop (recs : list fq_record) (t : list byte) (m : nat)
    (res : option (list Fq2fa.Seq)) :
  (forall g, resync_continues (fst (fq_next_state t g)) = false) ->
  (forall fuel g, m < fuel -> Fastq.Next g = fq_next_state t g ->
                  Fq2fa.read_loop fuel (RFastq g) = res) ->
  forall (fuel : nat) (f : Fastq.reader),
  Forall fq_rec_ok recs -> length recs + m < fuel ->
  Fastq.Next f = fq_next_state (fastq_text recs ++ t) f ->
  Fq2fa.read_loop fuel (RFastq f) =
  option_map (fun l => map (fun r => Fq2fa.mkSeq (fq_id r) (List.concat (fq_seq r))) recs ++ l)
    res.
Proof.
  intros Htstop Ht.
  induction recs as [|r recs IH]; intros fuel f Hok Hfuel Hn.
  - rewrite (Ht fuel f Hfuel Hn). destruct res; reflexivity.
  - destruct fuel as [|fuel]; [inversion Hfuel|]. cbn [Fq2fa.read_loop Reader_Next].
    inversion Hok as [|? ? (Hid & Hseq & Hsep & HsepB & Hq & Hpos) Hok']; subst.
    rewrite Hn. unfold fq_next_state. rewrite fastq_text_cons_app.
    rewrite (ReadBytes_line (AT :: fq_id r)) by (intros [H|H]; [discriminate | contradiction]).
    cbn [Fastq.identifierBytes app]. rewrite byte_eqb_refl.
    set (g := Fastq.mk _ (AT :: fq_id r ++ [NL]) 0 _ None _).
    cbn iota. cbn [Reader_Identifier].
    rewrite (Fastq_Identifier_line g AT (fq_id r)) by reflexivity.
    cbn [Reader_Sequence]. unfold Fastq.Sequence.
    rewrite (Fastq_seq_loop_lines (fq_sep r) (fq_qual r ++ NL :: fastq_text recs ++ t) (fq_seq r));
      try assumption; try reflexivity.
    + cbn [app]. rewrite (IH fuel); try assumption.
      * destruct res; reflexivity.
      * simpl in Hfuel. lia.
      * apply (Fastq_Next_after_quality _ (fq_qual r)); try reflexivity.
        -- cbn [Fastq.lastSeqLen]. exact Hpos.
        -- cbn [Fastq.lastSeqLen app]. exact Hq.
        -- apply fq_resync_stop_text; assumption.
    + cbn [Fastq.br g]. pose proof (length_lines (fq_seq r)). rewrite length_app. lia.
Qed.

Lemma Fastq_first_Next (recs : list fq_record) (t : list byte) (f : Fastq.reader) :
  recs <> [] -> Forall fq_rec_ok recs ->
  Fastq.lastErr f = Some ErrNotStarted -> Fastq.lastSeqLen f = 0 ->
  Fastq.br f = fastq_text recs ++ t ->
  Fastq.Next f = fq_next_state (fastq_text recs ++ t) f.
Proof.
  intros Hne Hok He Hl Hbr. destruct recs as [|r recs]; [contradiction|].
  inversion Hok as [|? ? (Hid & _) _]; subst.
  destruct f as [br idb lsl lb le cl]; cbn [Fastq.lastErr Fastq.lastSeqLen Fastq.br] in He, Hl, Hbr; subst.
  unfold Fastq.Next, fq_next_state. cbn [Fastq.lastErr Fastq.br err_is goerr_eqb].
  rewrite fastq_text_cons_app.
  rewrite (ReadBytes_line (AT :: fq_id r)) by (intros [Hx|Hx]; [discriminate | contradiction]).
  reflexivity.
Qed.

Lemma Open_fastq (recs : list fq_record) (t : list byte) :
  recs <> [] ->
  Open (fastq_text recs ++ t) =
  (Some (RFastq (Fastq.mk (fastq_text recs ++ t) [] 0 [] (Some ErrNotStarted) false)), None).
Proof.
  intro Hne. destruct recs as [|r recs]; [contradiction|].
  unfold Open. rewrite fastq_text_cons. cbn [app Fasta.br Peek1].
  rewrite byte_eqb_refl. reflexivity.
Qed.

(** X14: convertFile decodes FASTQ text: for records with identifier,
    sequence lines and '+' line free of '\n', sequence lines and '+' line
    that fit the 4096-byte buffer with their '\n', sequence lines not
    starting with '+', and a quality string as long as the
    (non-empty) sequence, it returns each record's identifier with the
    concatenation of its sequence lines.  The quality bytes are skipped by
    count, so they may be any bytes, even '@' or '\n'. *)
Theorem convertFile_fastq (recs : list fq_record) (fuel : nat) :
  recs <> [] -> Forall fq_rec_ok recs -> length recs < fuel ->
  Fq2fa.convertFile fuel (fastq_text recs) =
  Some (map (fun r => Fq2fa.mkSeq (fq_id r) (List.concat (fq_seq r))) recs).
Proof.
  intros Hne Hok Hfuel.
  unfold Fq2fa.convertFile. rewrite <- (app_nil_r (fastq_text recs)), Open_fastq by exact Hne.
  rewrite (Fastq_read_loop recs [] 0 (Some [])); try assumption; try lia.
  - cbn [option_map]. rewrite app_nil_r. reflexivity.
  - intro g. reflexivity.
  - intros [|fuel'] g Hf Hn; [inversion Hf|]. cbn [Fq2fa.read_loop Reader_Next].
    rewrite Hn. reflexivity.
  - apply Fastq_first_Next; try assumption; reflexivity.
Qed.

Lemma convertFile_fastq_witness :
  let recs := [FqRec (bs "r1") [bs "ACGT"; bs "TT"] (bs "") (bs "II@" ++ NL :: bs "II");
               FqRec (bs "r2") [bs "G"] (bs "r2") (bs "@")] in
  recs <> [] /\ Forall fq_rec_ok recs /\ length recs < 3 /\
  Fq2fa.convertFile 3 (fastq_text recs) =
  Some (map (fun r => Fq2fa.mkSeq (fq_id r) (List.concat (fq_seq r))) recs).
Proof.
  intro recs.
  assert (Hne : recs <> []) by discriminate.
  assert (Hok : Forall fq_rec_ok recs) by (unfold fq_rec_ok, fq_line_ok; rec_ok).
  split; [exact Hne|]. split; [exact Hok|]. split; [simpl; lia|].
  apply (convertFile_fastq recs 3 Hne Hok). simpl; lia.
Defined.

(** X15: a FASTQ file whose last line is a header "@h" without '\n' yields,
    after complete records as in X14 ([fq_rec_ok]: sequence lines and '+'
    line fitting the 4096-byte buffer, no sequence line starting with '+',
    quality as long as the non-empty sequence), one more record with an empty sequence and
    identifier [h] without its last byte; when [h] is empty, Identifier()
    slices out of range and convertFile panics ([None]). *)
Theorem convertFile_fastq_truncated_header (recs : list fq_record) (h : list byte) (fuel : nat) :
  recs <> [] -> Forall fq_rec_ok recs -> ~ In NL h -> S (length recs) < fuel ->
  Fq2fa.convertFile fuel (fastq_text recs ++ AT :: h) =
  match h with
  | [] => None
  | _ => Some (map (fun r => Fq2fa.mkSeq (fq_id r) (List.concat (fq_seq r))) recs
               ++ [Fq2fa.mkSeq (chop_last h) []])
  end.
Proof.
  intros Hne Hok Hh Hfuel.
  unfold Fq2fa.convertFile. rewrite Open_fastq by exact Hne.
  rewrite (Fastq_read_loop recs (AT :: h) 1
             (match h with [] => None | _ => Some [Fq2fa.mkSeq (chop_last h) []] end));
    try assumption; try lia.
  - destruct h; reflexivity.
  - intro g. unfold fq_next_state. rewrite ReadBytes_last by (intros [Hx|Hx]; [discriminate | contradiction]).
    unfold resync_continues. reflexivity.
  - intros [|[|fuel']] g Hf Hn; [lia | lia |].
    cbn [Fq2fa.read_loop Reader_Next].
    rewrite Hn. unfold fq_next_state.
    rewrite ReadBytes_last by (intros [Hx|Hx]; [discriminate | contradiction]).
    cbn [Fastq.identifierBytes]. rewrite byte_eqb_refl. cbn [Reader_Identifier].
    unfold Fastq.Identifier. cbn [Fastq.identifierBytes length skipn].
    destruct h as [|b h']; [reflexivity|].
    replace (2 <=? S (length (b :: h'))) with true by (symmetry; apply Nat.leb_le; simpl; lia).
    cbn iota. cbn [Reader_Sequence]. unfold Fastq.Sequence. cbn [Fastq.br length].
    reflexivity.
  - apply Fastq_first_Next; try assumption; reflexivity.
Qed.

Lemma convertFile_fastq_truncated_header_witness :
  let recs := [FqRec (bs "r1") [bs "ACGT"] (bs "") (bs "IIII")] in
  recs <> [] /\ Forall fq_rec_ok recs /\ ~ In NL (bs "r2") /\ S (length recs) < 3 /\
  Fq2fa.convertFile 3 (fastq_text recs ++ AT :: bs "r2") =
  Some [Fq2fa.mkSeq (bs "r1") (bs "ACGT"); Fq2fa.mkSeq (bs "r") []].
Proof.
  intro recs.
  assert (Hne : recs <> []) by discriminate.
  assert (Hok : Forall fq_rec_ok recs) by (unfold fq_rec_ok, fq_line_ok; rec_ok).
  assert (Hh : ~ In NL (bs "r2")) by not_in.
  split; [exact Hne|]. split; [exact Hok|]. split; [exact Hh|]. split; [simpl; lia|].
  rewrite (convertFile_fastq_truncated_header recs (bs "r2") 3 Hne Hok Hh); [reflexivity | simpl; lia].
Defined.

(** X16: when a FASTQ record's sequence is empty (the '+' line follows the
    header at once) and that '+' line fits the 4096-byte buffer with its
    '\n', Sequence() returns no bytes and leaves lastSeqLen at 0,
    so the next Next() skips nothing and reports the same header again. *)
Theorem Fastq_empty_sequence_repeats (f : Fastq.reader) (c rest : list byte) :
  Fastq.lastErr f = None -> first_is AT (Fastq.identifierBytes f) = true ->
  ~ In NL c -> S (S (length c)) <= defaultBufSize ->
  Fastq.br f = PLUS :: c ++ NL :: rest ->
  let '(f', s) := Fastq.Sequence f in
  s = [] /\ Fastq.lastSeqLen f' = 0
  /\ Fastq.identifierBytes f' = Fastq.identifierBytes f /\ Fastq.Next f' = (f', true).
Proof.
  intros He Hat Hc HcB Hbr. unfold Fastq.Sequence.
  rewrite (Fastq_seq_loop_lines c rest []); try assumption.
  - cbn [app List.concat length]. split; [reflexivity|]. split; [reflexivity|].
    split; [reflexivity|].
    unfold Fastq.Next. cbn [Fastq.lastErr err_is Fastq.lastSeqLen is_nil negb Nat.ltb Nat.leb].
    cbn [Fastq.identifierBytes].
    destruct (Fastq.identifierBytes f) as [|b l]; [discriminate|]. simpl in Hat. rewrite Hat.
    reflexivity.
  - constructor.
  - simpl. lia.
Qed.

Lemma Fastq_empty_sequence_repeats_witness :
  let f := Fastq.mk (bs "+" ++ NL :: bs "" ++ NL :: bs "@b" ++ [NL]) (bs "@a" ++ [NL]) 0 [] None false in
  Fastq.lastErr f = None /\ first_is AT (Fastq.identifierBytes f) = true /\
  ~ In NL (@nil byte) /\ S (S (length (@nil byte))) <= defaultBufSize /\
  Fastq.br f = PLUS :: [] ++ NL :: (bs "" ++ NL :: bs "@b" ++ [NL]) /\
  let '(f', s) := Fastq.Sequence f in
  s = [] /\ Fastq.lastSeqLen f' = 0
  /\ Fastq.identifierBytes f' = Fastq.identifierBytes f /\ Fastq.Next f' = (f', true).
Proof.
  intro f.
  split; [reflexivity|]. split; [reflexivity|]. split; [intros []|].
  split; [unfold defaultBufSize; simpl; lia|]. split; [reflexivity|].
  apply (Fastq_empty_sequence_repeats f [] (bs "" ++ NL :: bs "@b" ++ [NL]));
    [reflexivity | reflexivity | intros [] | unfold defaultBufSize; simpl; lia | reflexivity].
Defined.

Lemma Fastq_sb_loop_lines (ls : list (list byte)) (tail : list byte) :
  Forall fq_line_ok ls ->
  forall k f out, Fastq.br f = lines ls ++ tail ->
  Fastq.sb_loop (length ls + S k) f out =
  Fastq.sb_loop (S k)
    (Fastq.mk tail (Fastq.identifierBytes f) (Fastq.lastSeqLen f + length (List.concat ls)) []
       None (Fastq.closed f))
    (out ++ List.concat ls).
Proof.
  induction ls as [|l ls IH]; intros Hls k [br idb lsl lb e cl] out Hbr; simpl in Hbr; subst br.
  - rewrite app_nil_r, Nat.add_0_r. reflexivity.
  - inversion Hls as [|? ? [Hnl [HlB Hfirst]] Hls']; subst.
    cbn [length Nat.add Fastq.sb_loop Fastq.br].
    rewrite lines_cons, ReadSlice_line by assumption. cbn [err_is is_nil negb].
    rewrite (first_is_line PLUS l ltac:(discriminate) Hfirst), andb_false_r.
    replace (if 1 <? length (l ++ [NL]) then chop_last (l ++ [NL]) else []) with l.
    + rewrite (IH Hls' k); [|reflexivity].
      cbn [Fastq.identifierBytes Fastq.closed Fastq.lastSeqLen List.concat].
      rewrite <- app_assoc, length_app, Nat.add_assoc. reflexivity.
    + rewrite chop_last_line. destruct l as [|b l'].
      * reflexivity.
      * replace (1 <? length ((b :: l') ++ [NL])) with true
          by (symmetry; apply Nat.ltb_lt; rewrite length_app; simpl; lia).
        reflexivity.
Qed.

(** X17: on FASTQ sequence lines that fit the 4096-byte buffer with their
    '\n' and do not start with '+', followed by a '+' line that fits the
    buffer with its '\n', with lastSeqLen at
    0 as Next() leaves it, SequenceBytes() passes the bytes Sequence()
    returns, sets lastSeqLen to their number as Sequence() does and returns
    a nil error. *)
Theorem Fastq_SequenceBytes_Sequence (f : Fastq.reader) (ls : list (list byte)) (c rest : list byte) :
  Forall fq_line_ok ls -> ~ In NL c -> S (S (length c)) <= defaultBufSize ->
  Fastq.lastSeqLen f = 0 ->
  Fastq.br f = lines ls ++ PLUS :: c ++ NL :: rest ->
  Fastq.Sequence f =
    (Fastq.mk rest (Fastq.identifierBytes f) (length (List.concat ls)) (PLUS :: c ++ [NL]) None
       (Fastq.closed f), List.concat ls)
  /\ Fastq.SequenceBytes f = (fst (Fastq.Sequence f), snd (Fastq.Sequence f), None).
Proof.
  intros Hls Hc HcB H0 Hbr.
  assert (Hs : Fastq.Sequence f =
    (Fastq.mk rest (Fastq.identifierBytes f) (length (List.concat ls)) (PLUS :: c ++ [NL]) None
       (Fastq.closed f), List.concat ls)).
  { unfold Fastq.Sequence. rewrite (Fastq_seq_loop_lines c rest ls); try assumption.
    - reflexivity.
    - pose proof (length_lines ls). rewrite Hbr, length_app. lia. }
  split; [exact Hs|]. rewrite Hs. cbn [fst snd].
  unfold Fastq.SequenceBytes.
  replace (S (length (Fastq.br f))) with (length ls + S (length (Fastq.br f) - length ls))
    by (pose proof (length_lines ls); rewrite Hbr, length_app; lia).
  rewrite (Fastq_sb_loop_lines ls _ Hls _ f [] Hbr).
  cbn [Fastq.sb_loop Fastq.br].
  change (PLUS :: c ++ NL :: rest) with ((PLUS :: c) ++ NL :: rest).
  rewrite ReadSlice_line by (simpl; first [exact HcB | intros [Hx|Hx]; [discriminate | contradiction]]).
  replace (1 <? length ((PLUS :: c) ++ [NL])) with true
    by (symmetry; apply Nat.ltb_lt; rewrite length_app; simpl; lia).
  cbn [first_is app]. rewrite byte_eqb_refl, H0. reflexivity.
Qed.

Lemma Fastq_SequenceBytes_Sequence_witness :
  let f := Fastq.mk (lines [bs "AC"; bs "G"] ++ PLUS :: bs "" ++ NL :: bs "III" ++ [NL])
             (bs "@r" ++ [NL]) 0 [] None false in
  Forall fq_line_ok [bs "AC"; bs "G"] /\ ~ In NL (bs "") /\
  S (S (length (bs ""))) <= defaultBufSize /\ Fastq.lastSeqLen f = 0 /\
  Fastq.br f = lines [bs "AC"; bs "G"] ++ PLUS :: bs "" ++ NL :: (bs "III" ++ [NL]) /\
  Fastq.Sequence f =
    (Fastq.mk (bs "III" ++ [NL]) (Fastq.identifierBytes f) (length (List.concat [bs "AC"; bs "G"]))
       (PLUS :: bs "" ++ [NL]) None (Fastq.closed f), List.concat [bs "AC"; bs "G"])
  /\ Fastq.SequenceBytes f = (fst (Fastq.Sequence f), snd (Fastq.Sequence f), None).
Proof.
  intro f.
  assert (Hls : Forall fq_line_ok [bs "AC"; bs "G"]) by (unfold fq_line_ok; rec_ok).
  assert (Hc : ~ In NL (bs "")) by not_in.
  assert (HcB : S (S (length (bs ""))) <= defaultBufSize) by (unfold defaultBufSize; simpl; lia).
  split; [exact Hls|]. split; [exact Hc|]. split; [exact HcB|]. split; [reflexivity|].
  split; [reflexivity|].
  exact (Fastq_SequenceBytes_Sequence f _ _ _ Hls Hc HcB eq_refl eq_refl).
Defined.

Lemma length_concat_send {A} (subs : list (list A)) (i : nat) (s : A) :
  i < length subs -> length (List.concat (Fq2fa.send subs i s)) = S (length (List.concat subs)).
Proof.
  revert subs. induction i as [|i IH]; intros [|x xs] H; simpl in H; try lia.
  - unfold Fq2fa.send. simpl. rewrite !length_app. simpl. lia.
  - rewrite send_cons. simpl. rewrite !length_app, IH by lia. lia.
Qed.

(** X18: with at least one destination, fanWriters hands every record to
    exactly one destination: the destination channels together receive as
    many records as were read. *)
Theorem fanWriters_conserves {A} (n : nat) (recs : list A) :
  0 < n -> length (List.concat (fst (Fq2fa.fanWriters n recs))) = length recs.
Proof.
  intro Hn. induction recs as [|r recs IH] using rev_ind.
  - unfold Fq2fa.fanWriters. simpl. induction n as [|n IHn]; [reflexivity|].
    destruct n; [reflexivity|]. simpl in *. apply IHn. lia.
  - pose proof (fanWriters_inv n recs Hn) as (Hlen & Hcnt & _).
    unfold Fq2fa.fanWriters in *. rewrite fold_left_app.
    destruct (fold_left (Fq2fa.fan_step n) recs (repeat [] n, 0)) as [subs idx].
    simpl in *. rewrite length_concat_send, IH, length_app by (rewrite Hlen; apply Nat.mod_upper_bound; lia).
    simpl. lia.
Qed.

Lemma fanWriters_conserves_witness :
  0 < 3 /\ length (List.concat (fst (Fq2fa.fanWriters 3 [1; 2; 3; 4; 5]))) = length [1; 2; 3; 4; 5].
Proof. split; [lia | apply (fanWriters_conserves 3 [1; 2; 3; 4; 5]); lia]. Defined.

Lemma div_step (n d L : nat) :
  d < n ->
  (S L + (n - 1 - d)) / n = (L + (n - 1 - d)) / n + (if L mod n =? d then 1 else 0).
Proof.
  intro Hd.
  assert (Hn : n <> 0) by lia.
  pose proof (Nat.div_mod_eq L n) as HL. pose proof (Nat.mod_upper_bound L n Hn) as Hm.
  set (q := L / n) in *. set (m := L mod n) in *.
  assert (E : forall x, (L + x) / n = q + (m + x) / n).
  { intro x. replace (L + x) with ((m + x) + q * n) by lia.
    rewrite Nat.div_add by exact Hn. lia. }
  replace (S L + (n - 1 - d)) with (L + (n - d)) by lia.
  rewrite !E.
  destruct (Nat.eq_dec m d) as [->|Hne].
  - rewrite Nat.eqb_refl.
    replace (d + (n - d)) with (0 + 1 * n) by lia. rewrite Nat.div_add by exact Hn.
    rewrite (Nat.div_small (d + (n - 1 - d))) by lia. rewrite Nat.Div0.div_0_l. lia.
  - apply Nat.eqb_neq in Hne as Hne'. rewrite Hne'.
    destruct (Nat.lt_ge_cases m d) as [Hlt|Hge].
    + rewrite (Nat.div_small (m + (n - d))), (Nat.div_small (m + (n - 1 - d))) by lia. lia.
    + replace (m + (n - d)) with ((m - d) + 1 * n) by lia.
      replace (m + (n - 1 - d)) with ((m - d - 1) + 1 * n) by lia.
      rewrite !Nat.div_add by exact Hn.
      rewrite (Nat.div_small (m - d)), (Nat.div_small (m - d - 1)) by lia. lia.
Qed.

Lemma length_assigned {A} (n d : nat) (recs : list A) :
  d < n -> length (assigned_from n d 0 recs) = (length recs + (n - 1 - d)) / n.
Proof.
  intro Hd. induction recs as [|r recs IH] using rev_ind.
  - simpl. rewrite Nat.div_small by lia. reflexivity.
  - rewrite assigned_from_snoc, length_app, IH, length_app. simpl.
    rewrite Nat.add_1_r, div_step by exact Hd.
    destruct (length recs mod n =? d); reflexivity.
Qed.

(** X19: fanWriters balances the destinations: destination [d] of [n]
    receives (N + n - 1 - d) / n of N records, so the counts differ by at
    most one and never increase with [d]. *)
Theorem fanWriters_balanced {A} (n d : nat) (recs : list A) :
  d < n ->
  length (nth d (fst (Fq2fa.fanWriters n recs)) []) = (length recs + (n - 1 - d)) / n.
Proof.
  intro Hd. destruct (fanWriters_inv n recs ltac:(lia)) as (_ & _ & Hnth).
  rewrite Hnth by exact Hd. apply length_assigned, Hd.
Qed.

Lemma fanWriters_balanced_witness :
  2 < 3 /\
  length (nth 2 (fst (Fq2fa.fanWriters 3 [1; 2; 3; 4; 5])) []) = (length [1; 2; 3; 4; 5] + (3 - 1 - 2)) / 3.
Proof. split; [lia | apply (fanWriters_balanced 3 2 [1; 2; 3; 4; 5]); lia]. Defined.
